(** * Diagnostic plots for nuisance-biased classifiers: [mlhep2019/pivot/plotting.py]

    A shallow embedding of the four plotting routines of the module
    ([make_grid], [draw_response], [nuisance_prediction_hist],
    [nuisance_metric_plot]) together with the fragment of the array
    library they call.

    Conventions of the embedding:
    - a 1-D float array is a [list Q]; arithmetic is exact, rounding to
      binary64 is not modelled, and numeric equality between computed
      values is [Qeq] ([==]);
    - a 1-D integer array is a [list Z] (no wrap-around is modelled);
    - the explicit casts to single precision ([astype('float32')],
      [dtype='float32']) are kept as an abstract function [float32];
    - an exception raised by the array layer or by an indexing is the
      result [None];
    - the plotting backend is a log of draw commands, replayed on a
      figure made of numbered axes; of the backend's calls only
      [plt.contourf] and [plt.contour] raise, on a table that has fewer
      than two rows or fewer than two columns;
    - the helpers of the sibling module [utils] ([mutual_information],
      [binarize]), the metric and the text of a number under [%.2e] are
      parameters. *)

From Stdlib Require Import String Ascii DecimalString.
From Stdlib Require Import List ZArith QArith Lia Lqa Bool Arith.
Import ListNotations.

Set Implicit Arguments.

(** ** A small error monad for raised exceptions *)

Definition bind {A B : Type} (m : option A) (k : A -> option B) : option B :=
  match m with
  | Some a => k a
  | None => None
  end.

Notation "x <- m ;; k" := (bind m (fun x => k))
  (at level 61, m at next level, right associativity).
Notation "' p <- m ;; k" := (bind m (fun x => match x with p => k end))
  (at level 61, p pattern, m at next level, right associativity).

(** [mapM f l] runs [f] on every element, left to right, and fails with
    the first failure (a list comprehension whose body may raise). *)
Fixpoint mapM {A B : Type} (f : A -> option B) (l : list A) : option (list B) :=
  match l with
  | [] => Some []
  | a :: r => b <- f a ;; bs <- mapM f r ;; Some (b :: bs)
  end.

(** ** The array-library fragment *)

Module Np.

(** A 1-D array carries its element kind: [a.dtype.kind == 'i'] holds
    exactly for [IntArray]; an array of any other kind is read as
    floats. *)
Inductive ndarray : Type :=
| IntArray (a : list Z)
| FloatArray (a : list Q).

(** The elements seen as floats (what a float routine reads). *)
Definition values (n : ndarray) : list Q :=
  match n with
  | IntArray a => map inject_Z a
  | FloatArray a => a
  end.

Definition Qltb (x y : Q) : bool := negb (Qle_bool y x).

(** [np.min], [np.max]: reductions with no identity, they raise on an
    empty array. *)
Definition np_min (a : list Q) : option Q :=
  match a with
  | [] => None
  | x :: r => Some (fold_left (fun m v => if Qltb v m then v else m) r x)
  end.

Definition np_max (a : list Q) : option Q :=
  match a with
  | [] => None
  | x :: r => Some (fold_left (fun m v => if Qltb m v then v else m) r x)
  end.

Definition np_max_int (a : list Z) : option Z :=
  match a with
  | [] => None
  | x :: r => Some (fold_left Z.max r x)
  end.

(** [np.arange(n)]: 0, 1, ..., n-1; empty when [n <= 0]. *)
Definition np_arange (n : Z) : list Z :=
  map Z.of_nat (seq 0 (Z.to_nat n)).

(** [y[-1] = v] on a non-empty array. *)
Definition set_last (y : list Q) (v : Q) : list Q :=
  removelast y ++ [v].

(** [np.linspace(start, stop, num)] with the default [endpoint=True]:
    a negative [num] raises; otherwise [step = (stop-start)/(num-1)],
    the points are [k*step + start] and, when there are at least two
    points, the last one is overwritten with [stop]. With one point the
    divisor is 0 and the point is [0*(stop-start) + start]. *)
Definition np_linspace (start stop : Q) (num : Z) : option (list Q) :=
  if (num <? 0)%Z then None
  else
    let div := (num - 1)%Z in
    let delta := (stop - start)%Q in
    let y := map (fun k => inject_Z (Z.of_nat k)) (seq 0 (Z.to_nat num)) in
    let y := if (0 <? div)%Z
             then map (fun k => k * (delta / inject_Z div))%Q y
             else map (fun k => k * delta)%Q y in
    let y := map (fun v => v + start)%Q y in
    Some (if (1 <? num)%Z then set_last y stop else y).

(** [np.any(edges[:-1] > edges[1:])] negated: the edges never decrease. *)
Definition monotone (edges : list Q) : bool :=
  forallb (fun p => Qle_bool (fst p) (snd p)) (combine (removelast edges) (tl edges)).

(** [np.searchsorted(edges, v, side='right')] on non-decreasing edges:
    the length of the longest prefix made of edges [<= v]. *)
Fixpoint searchsorted_right (edges : list Q) (v : Q) : nat :=
  match edges with
  | [] => 0
  | e :: r => if Qle_bool e v then S (searchsorted_right r v) else 0
  end.

(** The bin number of one sample along one axis, as [histogramdd]
    computes it: 0 is the outlier bin below the first edge, [len edges]
    the outlier bin above the last edge, and a sample equal to the last
    edge is shifted one bin to the left. [last] is [edges[-1]]. *)
Definition bin_number (edges : list Q) (last : Q) (v : Q) : nat :=
  let n := searchsorted_right edges v in
  if Qeq_bool v last then (n - 1)%nat else n.

Definition count_cell (cells : list (nat * nat)) (a b : nat) : nat :=
  length (filter (fun c => (fst c =? a)%nat && (snd c =? b)%nat) cells).

(** [np.histogram2d(x, y, bins=(xedges, yedges))[0]].
    Raises when [x] and [y] differ in length, when an edge array
    decreases somewhere, and when an edge array is empty (its last
    element is read). The table has one row per [x] bin and one column
    per [y] bin; the outlier bins (numbers 0 and [len edges]) are cut
    off, so a cell [(a, b)] counts the samples with bin numbers
    [(a+1, b+1)]. *)
Definition np_histogram2d (x y : list Q) (xedges yedges : list Q)
  : option (list (list nat)) :=
  if negb (length x =? length y)%nat then None
  else if negb (monotone xedges && monotone yedges) then None
  else
    match rev xedges, rev yedges with
    | xlast :: _, ylast :: _ =>
        let ncount := combine (map (bin_number xedges xlast) x)
                              (map (bin_number yedges ylast) y) in
        Some (map (fun a =>
                     map (fun b => count_cell ncount (S a) (S b))
                         (seq 0 (length yedges - 1)))
                  (seq 0 (length xedges - 1)))
    | _, _ => None
    end.

(** [a.reshape(r, c)] of a 1-D array, row-major; raises unless the
    array has exactly [r*c] elements. *)
Fixpoint chunks (A : Type) (r c : nat) (a : list A) : list (list A) :=
  match r with
  | O => []
  | S r' => firstn c a :: chunks r' c (skipn c a)
  end.

Definition reshape (A : Type) (a : list A) (r c : nat) : option (list (list A)) :=
  if (length a =? r * c)%nat then Some (chunks r c a) else None.

(** [np.meshgrid(xs, ys)]: two tables of [len ys] rows and [len xs]
    columns; the first repeats [xs] on every row, the second holds
    [ys[r]] all along row [r]. *)
Definition np_meshgrid (xs ys : list Q) : list (list Q) * list (list Q) :=
  (map (fun _ => xs) ys, map (fun y => map (fun _ => y) xs) ys).

(** [a.reshape(-1)] of a table: the rows one after the other. *)
Definition ravel (A : Type) (a : list (list A)) : list A := concat a.

(** Sum of all the cells of a count table. *)
Definition table_sum (h : list (list nat)) : nat :=
  list_sum (map (fun row => list_sum row) h).

(** [h[:, k]]: column [k], a negative [k] counting from the end;
    raises when [k] is out of range for [ncols] columns. *)
Definition get_column (ncols : nat) (h : list (list nat)) (k : Z)
  : option (list nat) :=
  let n := Z.of_nat ncols in
  if ((0 <=? k) && (k <? n))%Z then
    Some (map (fun row => nth (Z.to_nat k) row 0%nat) h)
  else if ((- n <=? k) && (k <? 0))%Z then
    Some (map (fun row => nth (Z.to_nat (k + n)) row 0%nat) h)
  else None.

(** [(a[1:] + a[:-1]) / 2]: the midpoints of consecutive elements. *)
Definition midpoints (a : list Q) : list Q :=
  map (fun p => (fst p + snd p) / 2)%Q (combine (tl a) (removelast a)).

(** [(a[:-1] + a[1:]) / 2]: the same midpoints, summed the other way
    round. *)
Definition centers (a : list Q) : list Q :=
  map (fun p => (fst p + snd p) / 2)%Q (combine (removelast a) (tl a)).

End Np.

(** ** The plotting backend

    Every call into the backend is logged as a [draw] command. [replay]
    gives the commands their meaning on a figure: a table of numbered
    axes, one of which is current. *)

Module Plt.

Inductive draw : Type :=
| Contourf (xs ys : list Q) (z : list (list Q)) (levels : list Q)
| Scatter (xs ys : list Q)
| Contour (xs ys : list Q) (z : list (list Q)) (levels : list Q)
| Subplots (nrows ncols : Z) (figsize : Z * Z)
| Subplot (nrows ncols index : Z)
| Plot (xs ys : list Q) (label : option string)
| Title (text : string)
| Ylim (lo hi : Q)
| Ylabel (text : string)
| Xlabel (text : string)
| Legend.

Record axes : Type := {
  ax_lines : list (list Q * list Q * option string);
  ax_title : option string;
  ax_ylim : option (Q * Q)
}.

Definition blank : axes :=
  {| ax_lines := []; ax_title := None; ax_ylim := None |}.

Record figure : Type := {
  current : Z;
  axes_at : Z -> axes
}.

Definition on_current (f : axes -> axes) (fig : figure) : figure :=
  {| current := current fig;
     axes_at := fun k => if (k =? current fig)%Z then f (axes_at fig k)
                         else axes_at fig k |}.

(** [plt.subplots] opens a new figure whose axes are all blank and
    leaves the last one current; [plt.subplot(n, m, k)] makes the axes
    number [k] current; [plt.plot] adds a line to the current axes and
    [plt.title], [plt.ylim] set their title and vertical range. The
    other commands do not touch what the theorems below look at. *)
Definition step (fig : figure) (c : draw) : figure :=
  match c with
  | Subplots nrows ncols _ =>
      {| current := (nrows * ncols)%Z; axes_at := fun _ => blank |}
  | Subplot _ _ k =>
      {| current := k; axes_at := axes_at fig |}
  | Plot xs ys label =>
      on_current (fun a => {| ax_lines := ax_lines a ++ [(xs, ys, label)];
                              ax_title := ax_title a;
                              ax_ylim := ax_ylim a |}) fig
  | Title text =>
      on_current (fun a => {| ax_lines := ax_lines a;
                              ax_title := Some text;
                              ax_ylim := ax_ylim a |}) fig
  | Ylim lo hi =>
      on_current (fun a => {| ax_lines := ax_lines a;
                              ax_title := ax_title a;
                              ax_ylim := Some (lo, hi) |}) fig
  | _ => fig
  end.

Definition replay (log : list draw) (fig : figure) : figure :=
  fold_left step log fig.

(** [plt.contourf(x, y, z, ...)] and [plt.contour(x, y, z, ...)] check
    their arguments before they draw: a table [z] of shape
    [(nrows, ncols)] with fewer than two rows or fewer than two columns
    raises [TypeError]. *)
Definition contour_args (nrows ncols : nat) : option unit :=
  if (2 <=? nrows)%nat && (2 <=? ncols)%nat then Some tt else None.

End Plt.

Import Np Plt.

(** ** The routines of [plotting.py] *)

(** A count of the histogram as the float the array holds. *)
Definition count_value (n : nat) : Q := inject_Z (Z.of_nat n).

(** [a[mask]] with a boolean mask: raises unless the mask is as long as
    the array. *)
Definition mask_select (A : Type) (mask : list bool) (a : list A)
  : option (list A) :=
  if (length mask =? length a)%nat
  then Some (map snd (filter fst (combine mask a)))
  else None.

(** Resolution of a Python index [k] into a sequence of [len] items:
    a negative index counts from the end, anything else out of range
    raises. *)
Definition py_index (len : nat) (k : Z) : option nat :=
  let n := Z.of_nat len in
  if ((0 <=? k) && (k <? n))%Z then Some (Z.to_nat k)
  else if ((- n <=? k) && (k <? 0))%Z then Some (Z.to_nat (k + n))
  else None.

(** [binned[i].append(v)] for a resolved index [i]. *)
Fixpoint append_at (A : Type) (binned : list (list A)) (i : nat) (v : A)
  : list (list A) :=
  match binned, i with
  | [], _ => []
  | l :: r, O => (l ++ [v]) :: r
  | l :: r, S i' => l :: append_at r i' v
  end.

(** [for i in range(len(vals)): binned[indx[i]].append(vals[i])]:
    reading [indx] past its end raises, and so does an index that does
    not resolve. *)
Fixpoint partition_loop (A : Type) (indx : list Z) (vals : list A)
  (binned : list (list A)) {struct vals} : option (list (list A)) :=
  match vals with
  | [] => Some binned
  | v :: vals' =>
      match indx with
      | [] => None
      | k :: indx' =>
          i <- py_index (length binned) k ;;
          partition_loop indx' vals' (append_at binned i v)
      end
  end.

(** [[list() for _ in range(n)]]. *)
Definition empty_bins (A : Type) (n : Z) : list (list A) :=
  repeat [] (Z.to_nat n).

(** [np.where(a > 0.5, 1, 0)]. *)
Definition binarize_labels (ls : list Q) : list Z :=
  map (fun l => if Qltb (1#2) l then 1%Z else 0%Z) ls.

(** The builtin [min] and [max] of a list: they raise on an empty one;
    [min(a, b)] is [b] when [b < a] and [a] otherwise. *)
Definition py_min2 (a b : Q) : Q := if Qltb b a then b else a.
Definition py_max2 (a b : Q) : Q := if Qltb a b then b else a.

Definition py_min (l : list Q) : option Q :=
  match l with
  | [] => None
  | x :: r => Some (fold_left py_min2 r x)
  end.

Definition py_max (l : list Q) : option Q :=
  match l with
  | [] => None
  | x :: r => Some (fold_left py_max2 r x)
  end.

Definition string_of_nat (n : nat) : string :=
  NilEmpty.string_of_uint (Nat.to_uint n).

Record hist_result : Type := {
  hr_nuisance_bins : Z;
  hr_nu_bins : list Q;
  hr_p_bins : list Q;
  hr_hists : list (list (list nat));
  hr_log : list draw
}.

Record metric_result : Type := {
  mr_nu_bins : list Q;
  mr_labels_binned : list (list Z);
  mr_calls : list (list (list Z * list Q));
  mr_metrics : list (list Q);
  mr_log : list draw
}.

Section Plotting.

(** Rounding to single precision. *)
Variable float32 : Q -> Q.

(** [mutual_information] of the sibling module [utils]: a statistic of
    a count table. *)
Variable mutual_information : list (list nat) -> Q.

(** The text of ['%.2e' % x]. *)
Variable format_2e : Q -> string.

(** [binarize] of the sibling module [utils]: per-sample bin indices and
    the bin edges for a nuisance vector and a requested bin count. *)
Variable binarize : ndarray -> Z -> list Z * list Q.

(** [make_grid(data, size)], [data] being the rows of an N x 2 matrix. *)
Definition make_grid (data : list (Q * Q)) (size : Z)
  : option (list Q * list Q * list (Q * Q)) :=
  min0 <- np_min (map fst data) ;;
  min1 <- np_min (map snd data) ;;
  max0 <- np_max (map fst data) ;;
  max1 <- np_max (map snd data) ;;
  let delta0 := (max0 - min0)%Q in
  let delta1 := (max1 - min1)%Q in
  xs <- np_linspace (min0 - (5#100) * delta0) (max0 + (5#100) * delta0) size ;;
  ys <- np_linspace (min1 - (5#100) * delta1) (max1 + (5#100) * delta1) size ;;
  let (grid_X, grid_Y) := np_meshgrid xs ys in
  let grid := map (fun p => (float32 (fst p), float32 (snd p)))
                  (combine (ravel grid_X) (ravel grid_Y)) in
  Some (xs, ys, grid).

(** The default [size=25]. *)
Definition make_grid_default (data : list (Q * Q)) :=
  make_grid data 25.

(** [draw_response(xs, ys, probabilities, data, labels)]: the reshaped
    table and the commands sent to the backend. The table has the shape
    [(ys.shape[0], xs.shape[0])], which both contour calls check. *)
Definition draw_response (xs ys probabilities : list Q)
  (data : list (Q * Q)) (labels : list Q)
  : option (list (list Q) * list draw) :=
  table <- reshape probabilities (length ys) (length xs) ;;
  levels <- np_linspace 0 1 20 ;;
  _ <- contour_args (length ys) (length xs) ;;
  pos <- mask_select (map (fun l => Qltb (1#2) l) labels) data ;;
  neg <- mask_select (map (fun l => Qltb l (1#2)) labels) data ;;
  _ <- contour_args (length ys) (length xs) ;;
  Some (table,
        [ Contourf xs ys table levels;
          Scatter (map fst pos) (map snd pos);
          Scatter (map fst neg) (map snd neg);
          Contour xs ys table [1#2] ]).

(** The first branch of [nuisance_prediction_hist]: the number of
    nuisance bins and their edges. *)
Definition nuisance_edges (nuisance : ndarray) (nuisance_bins : Z)
  : option (Z * list Q) :=
  match nuisance with
  | IntArray a =>
      m <- np_max_int a ;;
      let nuisance_bins := (m + 1)%Z in
      Some (nuisance_bins,
            map (fun k => inject_Z k - (1#2))%Q (np_arange (nuisance_bins + 1)))
  | FloatArray a =>
      mx <- np_max a ;;
      mn <- np_min a ;;
      let delta := (mx - mn)%Q in
      nu_bins <- np_linspace (mn - (1#1000) * delta) (mx + (1#1000) * delta)
                             (nuisance_bins + 1) ;;
      Some (nuisance_bins, nu_bins)
  end.

(** The title of the top subplot of model [j]. *)
Definition title_text (names : option (list string)) (j : nat) (mi : Q)
  : option string :=
  match names with
  | Some ns =>
      name <- nth_error ns j ;;
      Some (name ++ " (MI=" ++ format_2e mi ++ ")")%string
  | None =>
      Some ("Model " ++ string_of_nat j ++ " (MI=" ++ format_2e mi ++ ")")%string
  end.

(** The body of the inner loop: subplot row [i] of the column of model
    [j]. *)
Definition subplot_cmds (names : option (list string)) (n_models : nat)
  (nuisance_bins : Z) (nu_bins p_bins : list Q) (hist : list (list nat))
  (mi : Q) (j i : nat) : option (list draw) :=
  col <- get_column (length nu_bins - 1) hist (nuisance_bins - Z.of_nat i - 1) ;;
  let cmds :=
    [ Subplot nuisance_bins (Z.of_nat n_models)
              (Z.of_nat i * Z.of_nat n_models + Z.of_nat j + 1);
      Plot (midpoints p_bins) (map count_value col) None ] in
  if (i =? 0)%nat then
    t <- title_text names j mi ;;
    Some (cmds ++ [Title t])
  else Some cmds.

(** The body of the outer loop: the column of model [j]. *)
Definition model_cmds (names : option (list string)) (n_models : nat)
  (nuisance_bins : Z) (nu_bins p_bins : list Q)
  (hists : list (list (list nat))) (j : nat) : option (list draw) :=
  hist <- nth_error hists j ;;
  let mi := mutual_information hist in
  cells <- mapM (subplot_cmds names n_models nuisance_bins nu_bins p_bins hist mi j)
                (seq 0 (Z.to_nat nuisance_bins)) ;;
  Some (concat cells).

(** The computing half of [nuisance_prediction_hist] (up to the list
    [hists]): the number of nuisance bins, both edge arrays and one
    count table per model. *)
Definition prediction_hists (predictions : list (list Q))
  (nuisance : ndarray) (nuisance_bins prediction_bins : Z)
  : option (Z * list Q * list Q * list (list (list nat))) :=
  '(nuisance_bins, nu_bins) <- nuisance_edges nuisance nuisance_bins ;;
  p_bins <- np_linspace 0 1 prediction_bins ;;
  hists <- mapM (fun proba => np_histogram2d proba (values nuisance) p_bins nu_bins)
                predictions ;;
  Some (nuisance_bins, nu_bins, p_bins, hists).

(** [nuisance_prediction_hist(predictions, nuisance, names,
    nuisance_bins, prediction_bins)]. *)
Definition nuisance_prediction_hist (predictions : list (list Q))
  (nuisance : ndarray) (names : option (list string))
  (nuisance_bins prediction_bins : Z) : option hist_result :=
  '(nuisance_bins, nu_bins, p_bins, hists) <-
     prediction_hists predictions nuisance nuisance_bins prediction_bins ;;
  let n_models := length predictions in
  columns <- mapM (model_cmds names n_models nuisance_bins nu_bins p_bins hists)
                  (seq 0 n_models) ;;
  Some {| hr_nuisance_bins := nuisance_bins;
          hr_nu_bins := nu_bins;
          hr_p_bins := p_bins;
          hr_hists := hists;
          hr_log := Subplots nuisance_bins (Z.of_nat n_models)
                             (5 * Z.of_nat n_models, 2 * nuisance_bins)%Z
                    :: concat columns |}.

(** The defaults [names=None, nuisance_bins=20, prediction_bins=20]. *)
Definition nuisance_prediction_hist_default (predictions : list (list Q))
  (nuisance : ndarray) :=
  nuisance_prediction_hist predictions nuisance None 20 20.

(** The metric values of one model: its predictions are partitioned
    like the labels, each group is cast to single precision, and the
    metric is called on every (labels, predictions) pair of groups. *)
Definition model_calls (indx : list Z) (n_bins : Z)
  (labels_binned : list (list Z)) (proba : list Q)
  : option (list (list Z * list Q)) :=
  proba_binned <- partition_loop indx proba (empty_bins Q n_bins) ;;
  let proba_binned := map (map float32) proba_binned in
  Some (map (fun p => (snd p, fst p)) (combine proba_binned labels_binned)).

(** The label of line [i]: [names[i] if names is not None else None]. *)
Definition line_label (names : option (list string)) (i : nat)
  : option (option string) :=
  match names with
  | Some ns => name <- nth_error ns i ;; Some (Some name)
  | None => Some None
  end.

(** The computing half of [nuisance_metric_plot] (up to the list
    [metrics]): the bin edges, the binarized label groups, the
    arguments of every call of the metric, model by model, and the
    metric values. *)
Definition binned_metrics (predictions : list (list Q))
  (labels : list Q) (nuisance : ndarray)
  (metric_fn : list Z -> list Q -> Q) (nuisance_bins : Z)
  : option (list Q * list (list Z) * list (list (list Z * list Q))
            * list (list Q)) :=
  let (indx, nu_bins) := binarize nuisance nuisance_bins in
  let n_bins := (Z.of_nat (length nu_bins) - 1)%Z in
  labels_binned <- partition_loop indx labels (empty_bins Q n_bins) ;;
  let labels_binned := map binarize_labels labels_binned in
  calls <- mapM (model_calls indx n_bins labels_binned) predictions ;;
  let metrics := map (map (fun c => metric_fn (fst c) (snd c))) calls in
  Some (nu_bins, labels_binned, calls, metrics).

(** [nuisance_metric_plot(predictions, labels, nuisance, metric_fn,
    base_level, names, nuisance_bins)]. *)
Definition nuisance_metric_plot (predictions : list (list Q))
  (labels : list Q) (nuisance : ndarray)
  (metric_fn : list Z -> list Q -> Q) (base_level : Q)
  (names : option (list string)) (nuisance_bins : Z)
  : option metric_result :=
  '(nu_bins, labels_binned, calls, metrics) <-
     binned_metrics predictions labels nuisance metric_fn nuisance_bins ;;
  let bin_centers := centers nu_bins in
  lines <- mapM (fun im => label <- line_label names (fst im) ;;
                           Some (Plot bin_centers (snd im) label))
                (combine (seq 0 (length metrics)) metrics) ;;
  mins <- mapM np_min metrics ;;
  m_min <- py_min mins ;;
  maxs <- mapM np_max metrics ;;
  m_max <- py_max maxs ;;
  let m_delta := (m_max - m_min)%Q in
  Some {| mr_nu_bins := nu_bins;
          mr_labels_binned := labels_binned;
          mr_calls := calls;
          mr_metrics := metrics;
          mr_log := lines
                    ++ [ Ylim (py_min2 m_min base_level) (m_max + (5#100) * m_delta);
                         Ylabel "metric"; Xlabel "nuisance parameter" ]
                    ++ match names with
                       | Some _ => [Legend]
                       | None => []
                       end |}.

(** The default [base_level=0.5, names=None, nuisance_bins=10]. *)
Definition nuisance_metric_plot_default (predictions : list (list Q))
  (labels : list Q) (nuisance : ndarray) (metric_fn : list Z -> list Q -> Q) :=
  nuisance_metric_plot predictions labels nuisance metric_fn (1#2) None 10.

End Plotting.

(** ** The routine [nuasance_predictions_plot] *)

(** A float that a division may have produced: [x / 0] is [inf] for a
    positive [x] and [nan] for [0 / 0]. *)
Inductive fval : Type :=
| Finite (q : Q)
| Inf
| NaN.

(** [c / s] for two counts held as floats. *)
Definition true_divide (c s : nat) : fval :=
  if (s =? 0)%nat then (if (c =? 0)%nat then NaN else Inf)
  else Finite (count_value c / count_value s).

(** [t.T] for a table of [ncols] columns: row [b] of the result is
    column [b] of [t]. *)
Definition transpose (A : Type) (ncols : nat) (d : A) (t : list (list A))
  : list (list A) :=
  map (fun b => map (fun row => nth b row d) t) (seq 0 ncols).

(** The backend calls of the routine that [draw] does not have, and
    those it has. *)
Inductive image_draw : Type :=
| Imshow (image : list (list fval)) (extent : Q * Q * Q * Q)
| Colorbar
| Basic (c : draw).

Record image_result : Type := {
  ir_p : list Q;
  ir_p_bins : list Q;
  ir_nu_bins : list Q;
  ir_hist : list (list nat);
  ir_pmf : list (list fval);
  ir_log : list image_draw
}.

Section PredictionsPlot.

(** The type of the data tensor, and the logistic function. *)
Variable tensor : Type.
Variable sigmoid : Q -> Q.
Variable mutual_information : list (list nat) -> Q.
Variable format_2e : Q -> string.

(** [nuasance_predictions_plot(model, data, nuisance)], [model] giving
    one raw score per sample. *)
Definition nuasance_predictions_plot (model : tensor -> list Q) (data : tensor)
  (nuisance : ndarray) : option image_result :=
  let p := map sigmoid (model data) in
  p_min <- np_min p ;;
  p_max <- np_max p ;;
  p_bins <- np_linspace p_min p_max 21 ;;
  let nu_bins := map inject_Z (np_arange 6) in
  hist <- np_histogram2d p (values nuisance) p_bins nu_bins ;;
  let total := table_sum hist in
  let pmf := map (map (fun c => true_divide c total)) hist in
  let mi := mutual_information hist in
  Some {| ir_p := p;
          ir_p_bins := p_bins;
          ir_nu_bins := nu_bins;
          ir_hist := hist;
          ir_pmf := pmf;
          ir_log := [ Imshow (transpose (length nu_bins - 1) NaN pmf)
                        (p_min, p_max, 0, 5)%Q;
                      Basic (Title ("MI = " ++ format_2e mi)%string);
                      Colorbar;
                      Basic (Xlabel "Network predictions");
                      Basic (Ylabel "Nuisance parameter") ] |}.

End PredictionsPlot.

(** ** Vocabulary of the statements *)

(** [within edges v]: the sample [v] lies inside the range the edges
    span, from the first edge to the last one. *)
Definition within (edges : list Q) (v : Q) : Prop :=
  match edges with
  | [] => False
  | lo :: _ => (lo <= v /\ v <= last edges lo)%Q
  end.

(** A pair of bin numbers is a proper cell of a table of [n] by [m]
    bins when neither is an outlier bin: both are at least 1 and at
    most the number of bins on their axis. *)
Definition proper_cell (n m : nat) (c : nat * nat) : bool :=
  ((1 <=? fst c) && (fst c <=? n) && ((1 <=? snd c) && (snd c <=? m)))%nat.

(** One subplot as the inner loop of [nuisance_prediction_hist] draws
    it: the number of its axes, its line and, maybe, its title. *)
Record block : Type := {
  b_index : Z;
  b_line : list Q * list Q * option string;
  b_title : option string
}.

Definition block_cmds (nrows ncols : Z) (b : block) : list draw :=
  Subplot nrows ncols (b_index b)
  :: Plot (fst (fst (b_line b))) (snd (fst (b_line b))) (snd (b_line b))
  :: match b_title b with
     | Some t => [Title t]
     | None => []
     end.

(** What drawing a block does to the axes it selects. *)
Definition draw_block (b : block) (a : axes) : axes :=
  {| ax_lines := ax_lines a ++ [b_line b];
     ax_title := match b_title b with
                 | Some t => Some t
                 | None => ax_title a
                 end;
     ax_ylim := ax_ylim a |}.

(** The title the top subplot of model [j] is expected to carry. *)
Definition expected_title (mutual_information : list (list nat) -> Q)
  (format_2e : Q -> string) (names : option (list string)) (j : nat)
  (hist : list (list nat)) : string :=
  match names with
  | Some ns =>
      (nth j ns EmptyString ++ " (MI=" ++ format_2e (mutual_information hist) ++ ")")%string
  | None =>
      ("Model " ++ string_of_nat j ++ " (MI="
         ++ format_2e (mutual_information hist) ++ ")")%string
  end.

(** The values plotted in subplot row [i] of a model whose count table
    is [hist]: the column of nuisance bin [nuisance_bins - i - 1]. *)
Definition expected_column (nuisance_bins : Z) (i : nat) (hist : list (list nat))
  : list Q :=
  map (fun row => count_value (nth (Z.to_nat (nuisance_bins - Z.of_nat i - 1)) row 0%nat))
      hist.

(** The block expected in row [i] of the column of model [j]. *)
Definition subplot_block (mutual_information : list (list nat) -> Q)
  (format_2e : Q -> string) (names : option (list string)) (n_models : nat)
  (nuisance_bins : Z) (p_bins : list Q) (hists : list (list (list nat)))
  (j i : nat) : block :=
  let hist := nth j hists [] in
  {| b_index := Z.of_nat i * Z.of_nat n_models + Z.of_nat j + 1;
     b_line := (midpoints p_bins, expected_column nuisance_bins i hist, None);
     b_title := if (i =? 0)%nat
                then Some (expected_title mutual_information format_2e names j hist)
                else None |}.

(** The samples of bin [b]: the values whose per-sample index is [b],
    in their original order. *)
Definition group (A : Type) (b : nat) (indx : list Z) (vals : list A) : list A :=
  map snd (filter (fun p => (fst p =? Z.of_nat b)%Z) (combine indx vals)).

(** [m] is the least (greatest) of the values of all the lists. *)
Definition global_min (metrics : list (list Q)) (m : Q) : Prop :=
  In m (concat metrics) /\ forall v, In v (concat metrics) -> (m <= v)%Q.

Definition global_max (metrics : list (list Q)) (m : Q) : Prop :=
  In m (concat metrics) /\ forall v, In v (concat metrics) -> (v <= m)%Q.

(** Commands that leave the current axes current, and those that, in
    addition, leave vertical ranges alone. *)
Definition keeps_current (c : draw) : bool :=
  match c with
  | Subplots _ _ _ | Subplot _ _ _ => false
  | _ => true
  end.

Definition keeps_ylim (c : draw) : bool :=
  match c with
  | Subplots _ _ _ | Subplot _ _ _ | Ylim _ _ => false
  | _ => true
  end.

(** The boolean form of [within]. *)
Definition withinb (edges : list Q) (v : Q) : bool :=
  match edges with
  | [] => false
  | lo :: _ => Qle_bool lo v && Qle_bool v (last edges lo)
  end.

(** The total of column [b] of a count table. *)
Definition column_sum (h : list (list nat)) (b : nat) : nat :=
  list_sum (map (fun row => nth b row 0%nat) h).

(** The samples that land in bin [b] of [n] bins when a negative index
    counts from the end: those whose index is [b] modulo [n]. *)
Definition group_wrapped (A : Type) (n b : nat) (indx : list Z) (vals : list A)
  : list A :=
  map snd (filter (fun p => (fst p mod Z.of_nat n =? Z.of_nat b)%Z)
                  (combine indx vals)).

(** The first [m] indices exist and each resolves among [n] bins. *)
Definition indices_ok (n : nat) (indx : list Z) (m : nat) : bool :=
  (m <=? length indx)%nat
  && forallb (fun k => (- Z.of_nat n <=? k) && (k <? Z.of_nat n))%Z (firstn m indx).

(** The sum of the finite cells of a table of floats. *)
Definition finite_sum (t : list (list fval)) : Q :=
  fold_right Qplus 0%Q
    (map (fun c => match c with Finite q => q | _ => 0%Q end) (concat t)).

Unset Implicit Arguments.

(** ** Facts about the error monad *)

Lemma bind_some (A B : Type) (m : option A) (k : A -> option B) (b : B) :
  bind m k = Some b -> exists a, m = Some a /\ k a = Some b.
Proof.
  destruct m as [a|]; simpl; intros H; [exists a; auto | discriminate].
Qed.

Lemma mapM_length (A B : Type) (f : A -> option B) (l : list A) (bs : list B) :
  mapM f l = Some bs -> length bs = length l.
Proof.
  revert bs; induction l as [|a r IH]; simpl; intros bs H.
  - inversion H; reflexivity.
  - destruct (f a) as [b|]; simpl in H; [|discriminate].
    destruct (mapM f r) as [bs'|]; simpl in H; [|discriminate].
    inversion H; subst; simpl; f_equal; apply IH; reflexivity.
Qed.

Lemma mapM_nth_error (A B : Type) (f : A -> option B) (l : list A)
  (bs : list B) (k : nat) (a : A) :
  mapM f l = Some bs -> nth_error l k = Some a ->
  exists b, nth_error bs k = Some b /\ f a = Some b.
Proof.
  revert bs k; induction l as [|x r IH]; simpl; intros bs k H Hk.
  - destruct k; discriminate.
  - destruct (f x) as [b|] eqn:Hf; simpl in H; [|discriminate].
    destruct (mapM f r) as [bs'|]; simpl in H; [|discriminate].
    inversion H; subst; clear H.
    destruct k as [|k]; simpl in *.
    + inversion Hk; subst; exists b; auto.
    + apply IH; auto.
Qed.

Lemma mapM_total (A B : Type) (f : A -> option B) (l : list A) :
  (forall a, In a l -> exists b, f a = Some b) ->
  exists bs, mapM f l = Some bs.
Proof.
  induction l as [|x r IH]; simpl; intros H.
  - eexists; reflexivity.
  - destruct (H x (or_introl eq_refl)) as [b Hb]; rewrite Hb; simpl.
    destruct IH as [bs Hbs]; [intros a Ha; apply H; auto|].
    rewrite Hbs; simpl; eexists; reflexivity.
Qed.

Lemma mapM_pure (A B : Type) (f : A -> B) (l : list A) :
  mapM (fun a => Some (f a)) l = Some (map f l).
Proof.
  induction l as [|x r IH]; simpl; [reflexivity|].
  rewrite IH; reflexivity.
Qed.

Lemma mapM_ext_in (A B : Type) (f g : A -> option B) (l : list A) :
  (forall a, In a l -> f a = g a) -> mapM f l = mapM g l.
Proof.
  induction l as [|x r IH]; simpl; intros H; [reflexivity|].
  rewrite (H x (or_introl eq_refl)), IH; auto.
Qed.

(** ** Facts about the array-library fragment *)

Module NpFacts.

Local Open Scope Q_scope.

Lemma Qltb_lt (x y : Q) : Qltb x y = true <-> x < y.
Proof.
  unfold Qltb; rewrite negb_true_iff.
  split; intros H.
  - apply Qnot_le_lt; intros Hle.
    apply Qle_bool_iff in Hle; congruence.
  - destruct (Qle_bool y x) eqn:E; [|reflexivity].
    apply Qle_bool_iff in E; exfalso; apply (Qlt_not_le _ _ H E).
Qed.

Lemma Qltb_ge (x y : Q) : Qltb x y = false <-> y <= x.
Proof.
  unfold Qltb; rewrite negb_false_iff; apply Qle_bool_iff.
Qed.

Lemma fold_min_spec (r : list Q) (x : Q) :
  let m := fold_left (fun m v => if Qltb v m then v else m) r x in
  In m (x :: r) /\ forall y, In y (x :: r) -> m <= y.
Proof.
  revert x; induction r as [|v r IH]; intros x; simpl.
  - split; [auto|]; intros y [<-|[]]; apply Qle_refl.
  - destruct (Qltb v x) eqn:E.
    + destruct (IH v) as [Hin Hle]; split.
      * destruct Hin as [H|H]; [right; left; exact H | right; right; exact H].
      * intros y [<-|[<-|Hy]].
        -- apply Qle_trans with v; [apply Hle; left; reflexivity|].
           apply Qlt_le_weak, Qltb_lt, E.
        -- apply Hle; left; reflexivity.
        -- apply Hle; right; exact Hy.
    + destruct (IH x) as [Hin Hle]; split.
      * destruct Hin as [H|H]; [left; exact H | right; right; exact H].
      * intros y [<-|[<-|Hy]].
        -- apply Hle; left; reflexivity.
        -- apply Qle_trans with x; [apply Hle; left; reflexivity|].
           apply Qltb_ge, E.
        -- apply Hle; right; exact Hy.
Qed.

Lemma fold_max_spec (r : list Q) (x : Q) :
  let m := fold_left (fun m v => if Qltb m v then v else m) r x in
  In m (x :: r) /\ forall y, In y (x :: r) -> y <= m.
Proof.
  revert x; induction r as [|v r IH]; intros x; simpl.
  - split; [auto|]; intros y [<-|[]]; apply Qle_refl.
  - destruct (Qltb x v) eqn:E.
    + destruct (IH v) as [Hin Hle]; split.
      * destruct Hin as [H|H]; [right; left; exact H | right; right; exact H].
      * intros y [<-|[<-|Hy]].
        -- apply Qle_trans with v; [|apply Hle; left; reflexivity].
           apply Qlt_le_weak, Qltb_lt, E.
        -- apply Hle; left; reflexivity.
        -- apply Hle; right; exact Hy.
    + destruct (IH x) as [Hin Hle]; split.
      * destruct Hin as [H|H]; [left; exact H | right; right; exact H].
      * intros y [<-|[<-|Hy]].
        -- apply Hle; left; reflexivity.
        -- apply Qle_trans with x; [|apply Hle; left; reflexivity].
           apply Qltb_ge, E.
        -- apply Hle; right; exact Hy.
Qed.

Lemma np_min_spec (a : list Q) (m : Q) :
  np_min a = Some m -> In m a /\ forall y, In y a -> m <= y.
Proof.
  destruct a as [|x r]; simpl; intros H; [discriminate|].
  inversion H; subst; apply fold_min_spec.
Qed.

Lemma np_max_spec (a : list Q) (m : Q) :
  np_max a = Some m -> In m a /\ forall y, In y a -> y <= m.
Proof.
  destruct a as [|x r]; simpl; intros H; [discriminate|].
  inversion H; subst; apply fold_max_spec.
Qed.

Lemma np_min_total (a : list Q) : a <> [] -> exists m, np_min a = Some m.
Proof. destruct a; [congruence | eexists; reflexivity]. Qed.

Lemma np_max_total (a : list Q) : a <> [] -> exists m, np_max a = Some m.
Proof. destruct a; [congruence | eexists; reflexivity]. Qed.

Lemma fold_max_int_spec (r : list Z) (x : Z) :
  In (fold_left Z.max r x) (x :: r) /\
  forall y, In y (x :: r) -> (y <= fold_left Z.max r x)%Z.
Proof.
  revert x; induction r as [|v r IH]; intros x; simpl.
  - split; [auto|]; intros y [<-|[]]; lia.
  - destruct (IH (Z.max x v)) as [Hin Hle]; split.
    + destruct Hin as [H|H]; [|right; right; exact H].
      destruct (Z.max_spec x v) as [[_ E]|[_ E]];
        [right; left; congruence | left; congruence].
    + intros y [<-|[<-|Hy]].
      * specialize (Hle (Z.max x v) (or_introl eq_refl)); lia.
      * specialize (Hle (Z.max x v) (or_introl eq_refl)); lia.
      * apply Hle; right; exact Hy.
Qed.

Lemma np_max_int_spec (a : list Z) (m : Z) :
  np_max_int a = Some m -> In m a /\ forall y, In y a -> (y <= m)%Z.
Proof.
  destruct a as [|x r]; simpl; intros H; [discriminate|].
  inversion H; subst; apply fold_max_int_spec.
Qed.

(** *** [np.arange] *)

Lemma np_arange_length (n : Z) : length (np_arange n) = Z.to_nat n.
Proof. unfold np_arange; rewrite length_map, length_seq; reflexivity. Qed.

Lemma np_arange_nth_error (n : Z) (k : nat) :
  (k < Z.to_nat n)%nat -> nth_error (np_arange n) k = Some (Z.of_nat k).
Proof.
  intros H; unfold np_arange.
  rewrite nth_error_map, nth_error_seq.
  destruct (Nat.ltb_spec k (Z.to_nat n)); [reflexivity | lia].
Qed.

(** *** [np.linspace] *)

Lemma set_last_length (y : list Q) (v : Q) :
  y <> [] -> length (set_last y v) = length y.
Proof.
  intros H; unfold set_last.
  rewrite length_app, removelast_firstn_len, length_firstn; simpl.
  destruct y; [congruence | simpl; lia].
Qed.

Lemma set_last_nth_error (y : list Q) (v : Q) (k : nat) :
  (k < length y)%nat ->
  nth_error (set_last y v) k =
  if (S k =? length y)%nat then Some v else nth_error y k.
Proof.
  intros H; unfold set_last.
  assert (Hl : length (removelast y) = (length y - 1)%nat).
  { rewrite removelast_firstn_len, length_firstn; lia. }
  destruct (Nat.eqb_spec (S k) (length y)) as [E|E].
  - rewrite nth_error_app2 by lia.
    replace (k - length (removelast y))%nat with 0%nat by lia; reflexivity.
  - rewrite nth_error_app1 by lia.
    rewrite removelast_firstn_len, nth_error_firstn.
    destruct (Nat.ltb_spec k (Nat.pred (length y))); [reflexivity | lia].
Qed.

Lemma np_linspace_length (start stop : Q) (num : Z) (l : list Q) :
  np_linspace start stop num = Some l -> length l = Z.to_nat num.
Proof.
  unfold np_linspace.
  destruct (Z.ltb_spec num 0); [discriminate|].
  intros Hl; inversion Hl; subst; clear Hl.
  assert (Hy : forall f : Q -> Q,
             length (map (fun v => v + start)
                      (map f (map (fun k => inject_Z (Z.of_nat k))
                                  (seq 0 (Z.to_nat num))))) = Z.to_nat num).
  { intros f; rewrite !length_map, length_seq; reflexivity. }
  destruct (Z.ltb_spec 1 num).
  - destruct (Z.ltb_spec 0 (num - 1)); [|lia].
    rewrite set_last_length; [apply Hy|].
    intros E; apply (f_equal (@length Q)) in E; rewrite Hy in E; simpl in E; lia.
  - destruct (Z.ltb_spec 0 (num - 1)); apply Hy.
Qed.

Lemma np_linspace_total (start stop : Q) (num : Z) :
  (0 <= num)%Z -> exists l, np_linspace start stop num = Some l.
Proof.
  intros H; unfold np_linspace.
  destruct (Z.ltb_spec num 0); [lia | eexists; reflexivity].
Qed.

Lemma np_linspace_negative (start stop : Q) (num : Z) :
  (num < 0)%Z -> np_linspace start stop num = None.
Proof.
  intros H; unfold np_linspace.
  destruct (Z.ltb_spec num 0); [reflexivity | lia].
Qed.

(** With at least two points, point [k] is [start + k*step] for
    [step = (stop - start)/(num - 1)]; the last one is [stop] itself. *)
Lemma np_linspace_nth_error (start stop : Q) (num : Z) (l : list Q) (k : nat) :
  (2 <= num)%Z -> np_linspace start stop num = Some l ->
  (k < Z.to_nat num)%nat ->
  nth_error l k =
  Some (if (S k =? Z.to_nat num)%nat then stop
        else inject_Z (Z.of_nat k) * ((stop - start) / inject_Z (num - 1)) + start).
Proof.
  intros Hn H Hk; unfold np_linspace in H.
  destruct (Z.ltb_spec num 0); [lia|].
  destruct (Z.ltb_spec 1 num); [|lia].
  destruct (Z.ltb_spec 0 (num - 1)); [|lia].
  inversion H; subst; clear H.
  rewrite set_last_nth_error by (rewrite !length_map, length_seq; exact Hk).
  rewrite !length_map, length_seq.
  destruct (Nat.eqb_spec (S k) (Z.to_nat num)); [reflexivity|].
  rewrite !nth_error_map, nth_error_seq.
  destruct (Nat.ltb_spec k (Z.to_nat num)); [reflexivity | lia].
Qed.

Lemma np_linspace_nth (start stop : Q) (num : Z) (l : list Q) (k : nat) :
  (2 <= num)%Z -> np_linspace start stop num = Some l ->
  (k < Z.to_nat num)%nat ->
  nth k l 0 == start + inject_Z (Z.of_nat k) * ((stop - start) / inject_Z (num - 1)).
Proof.
  intros Hn H Hk.
  rewrite (nth_error_nth l k 0 (np_linspace_nth_error _ _ _ _ k Hn H Hk)).
  destruct (Nat.eqb_spec (S k) (Z.to_nat num)) as [E|E].
  - assert (Ek : inject_Z (Z.of_nat k) == inject_Z (num - 1)).
    { replace (Z.of_nat k) with (num - 1)%Z by lia; reflexivity. }
    rewrite Ek.
    assert (Hd : ~ inject_Z (num - 1) == 0).
    { change 0 with (inject_Z 0); rewrite inject_Z_injective; lia. }
    field; exact Hd.
  - ring.
Qed.

Lemma np_linspace_first (start stop : Q) (num : Z) (l : list Q) :
  (1 <= num)%Z -> np_linspace start stop num = Some l ->
  exists v r, l = v :: r /\ v == start.
Proof.
  intros Hn H.
  destruct (Z.eq_dec num 1) as [->|Hne].
  - unfold np_linspace in H; simpl in H; inversion H; subst.
    eexists; eexists; split; [reflexivity | ring].
  - assert (Hk : (0 < Z.to_nat num)%nat) by lia.
    assert (Hn2 : (2 <= num)%Z) by lia.
    pose proof (np_linspace_nth_error _ _ _ _ 0%nat Hn2 H Hk) as E.
    destruct (Nat.eqb_spec 1 (Z.to_nat num)); [lia|].
    destruct l as [|v r]; cbn [nth_error] in E; [discriminate|].
    inversion E; subst; clear E.
    eexists; eexists; split; [reflexivity|].
    change (inject_Z (Z.of_nat 0)) with 0; ring.
Qed.

Lemma np_linspace_last (start stop : Q) (num : Z) (l : list Q) :
  (2 <= num)%Z -> np_linspace start stop num = Some l ->
  exists r, l = r ++ [stop].
Proof.
  intros Hn H; unfold np_linspace in H.
  destruct (Z.ltb_spec num 0); [lia|].
  destruct (Z.ltb_spec 1 num); [|lia].
  inversion H; subst; eexists; reflexivity.
Qed.

Lemma np_linspace_one (start stop : Q) :
  np_linspace start stop 1 = Some [0 * (stop - start) + start].
Proof. reflexivity. Qed.

(** *** Non-decreasing edges *)

Lemma monotone_cons2 (a b : Q) (r : list Q) :
  monotone (a :: b :: r) = Qle_bool a b && monotone (b :: r).
Proof. reflexivity. Qed.

Lemma monotone_le_last (l : list Q) (z : Q) :
  monotone (l ++ [z]) = true -> forall e, In e (l ++ [z]) -> e <= z.
Proof.
  induction l as [|a l IH]; intros H e He.
  - destruct He as [<-|[]]; apply Qle_refl.
  - destruct (l ++ [z]) as [|b r] eqn:E.
    { destruct l; discriminate. }
    change ((a :: l) ++ [z]) with (a :: l ++ [z]) in *.
    rewrite E in *.
    rewrite monotone_cons2 in H; apply andb_true_iff in H; destruct H as [Hab Hr].
    destruct He as [<-|He].
    + apply Qle_trans with b; [apply Qle_bool_iff, Hab|].
      apply IH; [exact Hr | left; reflexivity].
    + apply IH; assumption.
Qed.

Lemma monotone_intro (l : list Q) :
  (forall i a b, nth_error l i = Some a -> nth_error l (S i) = Some b -> a <= b) ->
  monotone l = true.
Proof.
  induction l as [|a l IH]; intros H; [reflexivity|].
  destruct l as [|b r]; [reflexivity|].
  rewrite monotone_cons2; apply andb_true_iff; split.
  - apply Qle_bool_iff; apply (H 0%nat); reflexivity.
  - apply IH; intros i x y Hx Hy; apply (H (S i)); assumption.
Qed.

(** *** Bin numbers *)

Lemma searchsorted_right_all (edges : list Q) (v : Q) :
  (forall e, In e edges -> e <= v) ->
  searchsorted_right edges v = length edges.
Proof.
  induction edges as [|e r IH]; simpl; intros H; [reflexivity|].
  assert (E : Qle_bool e v = true) by (apply Qle_bool_iff, H; auto).
  rewrite E, IH; auto.
Qed.

Lemma searchsorted_right_below (edges : list Q) (v : Q) :
  (exists e, In e edges /\ v < e) ->
  (searchsorted_right edges v < length edges)%nat.
Proof.
  induction edges as [|e r IH]; simpl; intros [x [Hx Hv]]; [destruct Hx|].
  destruct (Qle_bool e v) eqn:E; [|lia].
  destruct Hx as [<-|Hx].
  - apply Qle_bool_iff in E; exfalso; apply (Qlt_not_le _ _ Hv E).
  - assert (searchsorted_right r v < length r)%nat by (apply IH; eauto).
    lia.
Qed.

Lemma searchsorted_right_first (e : Q) (r : list Q) (v : Q) :
  v < e -> searchsorted_right (e :: r) v = 0%nat.
Proof.
  intros H; simpl.
  destruct (Qle_bool e v) eqn:E; [|reflexivity].
  apply Qle_bool_iff in E; exfalso; apply (Qlt_not_le _ _ H E).
Qed.

(** A sample below the first edge gets the lower outlier bin. *)
Lemma bin_number_below (e : Q) (r : list Q) (last v : Q) :
  v < e -> bin_number (e :: r) last v = 0%nat.
Proof.
  intros H; unfold bin_number.
  rewrite (searchsorted_right_first e r v H).
  destruct (Qeq_bool v last); reflexivity.
Qed.

(** A sample between the first and the last of at least two
    non-decreasing edges gets the number of a proper bin. *)
Lemma bin_number_inside (lo : Q) (mid : list Q) (hi v : Q) :
  monotone (lo :: mid ++ [hi]) = true ->
  lo <= v -> v <= hi ->
  (1 <= bin_number (lo :: mid ++ [hi]) hi v <= length (lo :: mid ++ [hi]) - 1)%nat.
Proof.
  intros Hm Hlo Hhi; unfold bin_number.
  assert (Hlen : length (lo :: mid ++ [hi]) = S (S (length mid))).
  { simpl; rewrite length_app; simpl; lia. }
  destruct (Qeq_bool v hi) eqn:E.
  - apply Qeq_bool_iff in E.
    rewrite searchsorted_right_all; [rewrite Hlen; lia|].
    intros e He; rewrite E.
    apply (monotone_le_last (lo :: mid) hi Hm e He).
  - apply Qeq_bool_neq in E.
    assert (Hlt : v < hi).
    { destruct (Qlt_le_dec v hi) as [H|H]; [exact H|].
      exfalso; apply E; apply Qle_antisym; assumption. }
    assert (H1 : (searchsorted_right (lo :: mid ++ [hi]) v
                  < length (lo :: mid ++ [hi]))%nat).
    { apply searchsorted_right_below; exists hi; split; [|exact Hlt].
      right; apply in_or_app; right; left; reflexivity. }
    assert (H2 : (1 <= searchsorted_right (lo :: mid ++ [hi]) v)%nat).
    { simpl; apply Qle_bool_iff in Hlo; rewrite Hlo; lia. }
    lia.
Qed.

(** *** Totals of a count table *)

Lemma list_sum_cons (a : nat) (l : list nat) :
  list_sum (a :: l) = (a + list_sum l)%nat.
Proof. reflexivity. Qed.

Lemma list_sum_map_zero (A : Type) (l : list A) :
  list_sum (map (fun _ => 0%nat) l) = 0%nat.
Proof. induction l; simpl; auto. Qed.

Lemma list_sum_map_add (A : Type) (f g : A -> nat) (l : list A) :
  list_sum (map (fun x => f x + g x)%nat l)
  = (list_sum (map f l) + list_sum (map g l))%nat.
Proof. induction l as [|x r IH]; simpl; [reflexivity | rewrite IH; lia]. Qed.

Lemma list_sum_map_ext (A : Type) (f g : A -> nat) (l : list A) :
  (forall x, f x = g x) -> list_sum (map f l) = list_sum (map g l).
Proof. intros H; induction l as [|x r IH]; simpl; [reflexivity | rewrite H, IH; reflexivity]. Qed.

Lemma list_sum_indicator (y k m s : nat) :
  list_sum (map (fun b => if (y =? S b)%nat then k else 0%nat) (seq s m))
  = if ((S s <=? y) && (y <=? s + m))%nat then k else 0%nat.
Proof.
  revert s; induction m as [|m IH]; intros s; cbn [seq map list_sum].
  - destruct (Nat.leb_spec (S s) y), (Nat.leb_spec y (s + 0));
      cbn [andb]; try reflexivity; lia.
  - rewrite list_sum_cons, IH.
    destruct (Nat.eqb_spec y (S s)) as [E|Hne];
      destruct (Nat.leb_spec (S (S s)) y), (Nat.leb_spec y (S s + m)),
        (Nat.leb_spec (S s) y), (Nat.leb_spec y (s + S m));
      cbn [andb]; try reflexivity; lia.
Qed.

Lemma core_sum (cells : list (nat * nat)) (n m : nat) :
  table_sum (map (fun a => map (fun b => count_cell cells (S a) (S b)) (seq 0 m))
                 (seq 0 n))
  = length (filter (proper_cell n m) cells).
Proof.
  unfold table_sum; rewrite map_map.
  induction cells as [|c cells IH].
  - rewrite (list_sum_map_ext _ _ (fun _ => 0%nat)).
    + apply list_sum_map_zero.
    + intros a; apply list_sum_map_zero.
  - rewrite (list_sum_map_ext _
      _ (fun a => (if (fst c =? S a)%nat
                   then (if ((1 <=? snd c) && (snd c <=? m))%nat then 1 else 0)
                   else 0)
                  + list_sum (map (fun b => count_cell cells (S a) (S b)) (seq 0 m)))%nat).
    + rewrite list_sum_map_add, IH, list_sum_indicator.
      change (filter (proper_cell n m) (c :: cells))
        with (if proper_cell n m c then c :: filter (proper_cell n m) cells
              else filter (proper_cell n m) cells).
      change (proper_cell n m c)
        with (((1 <=? fst c) && (fst c <=? 0 + n)
               && ((1 <=? snd c) && (snd c <=? m)))%nat).
      destruct ((1 <=? fst c) && (fst c <=? 0 + n))%nat;
        destruct ((1 <=? snd c) && (snd c <=? m))%nat; reflexivity.
    + intros a.
      rewrite (list_sum_map_ext _
        _ (fun b => (if (snd c =? S b)%nat
                     then (if (fst c =? S a)%nat then 1 else 0) else 0)
                    + count_cell cells (S a) (S b))%nat).
      * rewrite list_sum_map_add, list_sum_indicator.
        change (0 + m)%nat with m.
        destruct (fst c =? S a)%nat; [reflexivity|].
        destruct ((1 <=? snd c)%nat && (snd c <=? m)%nat); reflexivity.
      * intros b; unfold count_cell; simpl.
        destruct (fst c =? S a)%nat, (snd c =? S b)%nat; reflexivity.
Qed.

(** *** [np.histogram2d] *)

Lemma two_ends (l : list Q) :
  (2 <= length l)%nat -> exists lo mid hi, l = lo :: mid ++ [hi].
Proof.
  intros H; destruct l as [|lo r]; [simpl in H; lia|].
  assert (Hr : r <> []) by (destruct r; [simpl in H; lia | discriminate]).
  exists lo, (removelast r), (last r 0).
  f_equal; apply app_removelast_last; exact Hr.
Qed.

Lemma last_ends (lo : Q) (mid : list Q) (hi d : Q) :
  last (lo :: mid ++ [hi]) d = hi.
Proof.
  change (lo :: mid ++ [hi]) with ((lo :: mid) ++ [hi]); apply last_last.
Qed.

Lemma rev_ends (lo : Q) (mid : list Q) (hi : Q) :
  rev (lo :: mid ++ [hi]) = hi :: rev (lo :: mid).
Proof.
  change (lo :: mid ++ [hi]) with ((lo :: mid) ++ [hi]); apply rev_unit.
Qed.

Lemma filter_all (A : Type) (f : A -> bool) (l : list A) :
  (forall c, In c l -> f c = true) -> filter f l = l.
Proof.
  induction l as [|c r IH]; simpl; intros H; [reflexivity|].
  rewrite (H c (or_introl eq_refl)), IH; auto.
Qed.

Lemma filter_length_lt (A : Type) (f : A -> bool) (l : list A) :
  (exists c, In c l /\ f c = false) -> (length (filter f l) < length l)%nat.
Proof.
  induction l as [|c r IH]; simpl; intros [x [Hx Hf]]; [destruct Hx|].
  pose proof (filter_length_le f r) as Hle.
  destruct Hx as [<-|Hx].
  - rewrite Hf; lia.
  - assert (length (filter f r) < length r)%nat by (apply IH; eauto).
    destruct (f c); simpl; lia.
Qed.

Lemma in_combine_maps (A B C D : Type) (f : A -> C) (g : B -> D)
  (x : list A) (y : list B) (c : C * D) :
  In c (combine (map f x) (map g y)) ->
  exists a b, In a x /\ In b y /\ c = (f a, g b).
Proof.
  revert y; induction x as [|a x IH]; intros [|b y]; simpl; try tauto.
  intros [<-|H].
  - exists a, b; auto.
  - destruct (IH y H) as [a' [b' [Ha [Hb E]]]]; exists a', b'; auto.
Qed.

Lemma np_histogram2d_some (x y xedges yedges : list Q) (h : list (list nat)) :
  np_histogram2d x y xedges yedges = Some h ->
  exists xlast ylast xr yr,
    length x = length y /\
    rev xedges = xlast :: xr /\ rev yedges = ylast :: yr /\
    h = map (fun a =>
               map (fun b => count_cell
                               (combine (map (bin_number xedges xlast) x)
                                        (map (bin_number yedges ylast) y))
                               (S a) (S b))
                   (seq 0 (length yedges - 1)))
            (seq 0 (length xedges - 1)).
Proof.
  unfold np_histogram2d.
  destruct (Nat.eqb_spec (length x) (length y)) as [Hl|]; simpl; [|discriminate].
  destruct (monotone xedges && monotone yedges); simpl; [|discriminate].
  destruct (rev xedges) as [|xlast xr]; [discriminate|].
  destruct (rev yedges) as [|ylast yr]; [discriminate|].
  intros H; inversion H; subst; clear H.
  exists xlast, ylast, xr, yr; auto.
Qed.

Lemma np_histogram2d_total (x y xedges yedges : list Q) :
  length x = length y ->
  monotone xedges = true -> monotone yedges = true ->
  xedges <> [] -> yedges <> [] ->
  exists h, np_histogram2d x y xedges yedges = Some h.
Proof.
  intros Hl Hx Hy Hnx Hny; unfold np_histogram2d.
  rewrite (proj2 (Nat.eqb_eq _ _) Hl), Hx, Hy; simpl.
  destruct (rev xedges) as [|xlast xr] eqn:Ex.
  { apply (f_equal (@rev Q)) in Ex; rewrite rev_involutive in Ex; contradiction. }
  destruct (rev yedges) as [|ylast yr] eqn:Ey.
  { apply (f_equal (@rev Q)) in Ey; rewrite rev_involutive in Ey; contradiction. }
  eexists; reflexivity.
Qed.

(** The table has one row per bin of the first axis and one column per
    bin of the second. *)
Lemma np_histogram2d_shape (x y xedges yedges : list Q) (h : list (list nat)) :
  np_histogram2d x y xedges yedges = Some h ->
  length h = (length xedges - 1)%nat /\
  forall row, In row h -> length row = (length yedges - 1)%nat.
Proof.
  intros H; destruct (np_histogram2d_some _ _ _ _ _ H)
    as [xlast [ylast [xr [yr [_ [_ [_ ->]]]]]]].
  split.
  - rewrite length_map, length_seq; reflexivity.
  - intros row Hrow; apply in_map_iff in Hrow; destruct Hrow as [a [<- _]].
    rewrite length_map, length_seq; reflexivity.
Qed.

(** No sample is dropped when every sample lies within the edges of
    its axis and each axis has at least one bin. *)
Lemma np_histogram2d_inside (x y xedges yedges : list Q) :
  length x = length y ->
  monotone xedges = true -> monotone yedges = true ->
  (2 <= length xedges)%nat -> (2 <= length yedges)%nat ->
  (forall v, In v x -> within xedges v) ->
  (forall v, In v y -> within yedges v) ->
  exists h, np_histogram2d x y xedges yedges = Some h /\
            table_sum h = length x.
Proof.
  intros Hl Hmx Hmy Hnx Hny Hx Hy.
  destruct (two_ends xedges Hnx) as [xlo [xmid [xhi Ex]]].
  destruct (two_ends yedges Hny) as [ylo [ymid [yhi Ey]]].
  destruct (np_histogram2d_total x y xedges yedges Hl Hmx Hmy) as [h Hh];
    [subst; discriminate | subst; discriminate |].
  exists h; split; [exact Hh|].
  destruct (np_histogram2d_some _ _ _ _ _ Hh)
    as [xlast [ylast [xr [yr [_ [Erx [Ery ->]]]]]]].
  rewrite core_sum, filter_all.
  - rewrite length_combine, !length_map; lia.
  - intros c Hc; apply in_combine_maps in Hc.
    destruct Hc as [a [b [Ha [Hb ->]]]].
    subst xedges yedges; rewrite rev_ends in Erx, Ery.
    inversion Erx; inversion Ery; subst xlast ylast.
    specialize (Hx a Ha); specialize (Hy b Hb).
    unfold within in Hx, Hy; rewrite last_ends in Hx, Hy.
    destruct Hx as [Hx1 Hx2], Hy as [Hy1 Hy2].
    pose proof (bin_number_inside xlo xmid xhi a Hmx Hx1 Hx2) as Ba.
    pose proof (bin_number_inside ylo ymid yhi b Hmy Hy1 Hy2) as Bb.
    unfold proper_cell; cbn [fst snd].
    apply andb_true_iff; split; apply andb_true_iff; split;
      apply Nat.leb_le; lia.
Qed.

(** *** Edges built by [np.linspace] *)

Lemma inject_Z_pos (z : Z) : (0 < z)%Z -> 0 < inject_Z z.
Proof. intros H; change 0 with (inject_Z 0); rewrite <- Zlt_Qlt; exact H. Qed.

Lemma inject_Z_succ (k : nat) :
  inject_Z (Z.of_nat (S k)) == inject_Z (Z.of_nat k) + 1.
Proof.
  rewrite Nat2Z.inj_succ; unfold Z.succ; rewrite inject_Z_plus; reflexivity.
Qed.

Lemma linspace_step (start stop : Q) (num : Z) :
  (2 <= num)%Z -> start <= stop ->
  0 <= (stop - start) / inject_Z (num - 1) /\
  inject_Z (num - 1) * ((stop - start) / inject_Z (num - 1)) == stop - start.
Proof.
  intros Hn Hs.
  assert (Hp : 0 < inject_Z (num - 1)) by (apply inject_Z_pos; lia).
  split.
  - apply Qle_shift_div_l; [exact Hp | lra].
  - field; intros E; rewrite E in Hp; apply (Qlt_irrefl _ Hp).
Qed.

Lemma short_monotone (l : list Q) : (length l <= 1)%nat -> monotone l = true.
Proof. destruct l as [|a [|b r]]; simpl; intros H; try reflexivity; lia. Qed.

Lemma np_linspace_monotone (start stop : Q) (num : Z) (l : list Q) :
  start <= stop -> np_linspace start stop num = Some l -> monotone l = true.
Proof.
  intros Hs H.
  pose proof (np_linspace_length _ _ _ _ H) as Hl.
  destruct (Z.le_gt_cases 2 num) as [Hn|Hn];
    [|apply short_monotone; lia].
  destruct (linspace_step start stop num Hn Hs) as [H0 Hstep].
  apply monotone_intro; intros i a b Ha Hb.
  assert (Hi : (S i < Z.to_nat num)%nat).
  { rewrite <- Hl; apply nth_error_Some; congruence. }
  rewrite (np_linspace_nth_error _ _ _ _ i Hn H) in Ha by lia.
  rewrite (np_linspace_nth_error _ _ _ _ (S i) Hn H) in Hb by lia.
  set (step := (stop - start) / inject_Z (num - 1)) in *.
  destruct (Nat.eqb_spec (S i) (Z.to_nat num)); [lia|].
  destruct (Nat.eqb_spec (S (S i)) (Z.to_nat num)) as [E|E];
    injection Ha as <-; injection Hb as <-.
  - assert (Ei : inject_Z (num - 1) == inject_Z (Z.of_nat i) + 1).
    { rewrite <- inject_Z_succ; replace (num - 1)%Z with (Z.of_nat (S i)) by lia.
      reflexivity. }
    assert (Hr : inject_Z (Z.of_nat i) * step + step == stop - start).
    { rewrite <- Hstep, Ei; ring. }
    lra.
  - assert (Hr : inject_Z (Z.of_nat (S i)) * step
                 == inject_Z (Z.of_nat i) * step + step).
    { rewrite inject_Z_succ; ring. }
    change (Z.pos (Pos.of_succ_nat i)) with (Z.of_nat (S i)).
    lra.
Qed.

(** With at least two points the edges span from [start] to [stop]. *)
Lemma np_linspace_within (start stop : Q) (num : Z) (l : list Q) (v : Q) :
  (2 <= num)%Z -> np_linspace start stop num = Some l ->
  start <= v -> v <= stop -> within l v.
Proof.
  intros Hn H Hlo Hhi.
  assert (Hn1 : (1 <= num)%Z) by lia.
  destruct (np_linspace_first _ _ _ _ Hn1 H) as [lo [r [El Elo]]].
  destruct (np_linspace_last _ _ _ _ Hn H) as [r' El'].
  unfold within; rewrite El; rewrite <- El, El', last_last, Elo; auto.
Qed.

End NpFacts.

Import NpFacts.

(** ** The bin edges of [nuisance_prediction_hist] *)

Local Open Scope Q_scope.

Lemma np_max_int_unique (a : list Z) (m : Z) :
  In m a -> (forall z, In z a -> (z <= m)%Z) -> np_max_int a = Some m.
Proof.
  intros Hin Hmax.
  destruct a as [|x r]; [destruct Hin|].
  destruct (np_max_int (x :: r)) as [m'|] eqn:E; [|discriminate].
  destruct (np_max_int_spec _ _ E) as [Hin' Hmax'].
  f_equal; apply Z.le_antisymm; auto.
Qed.

Lemma int_edges_nth_error (n : Z) (k : nat) :
  (k < Z.to_nat n)%nat ->
  nth_error (map (fun z => inject_Z z - (1#2)) (np_arange n)) k
  = Some (inject_Z (Z.of_nat k) - (1#2)).
Proof.
  intros H; rewrite nth_error_map, np_arange_nth_error by exact H; reflexivity.
Qed.

Lemma int_edges_length (n : Z) :
  length (map (fun z => inject_Z z - (1#2)) (np_arange n)) = Z.to_nat n.
Proof. rewrite length_map; apply np_arange_length. Qed.

Lemma int_edges_monotone (n : Z) :
  monotone (map (fun z => inject_Z z - (1#2)) (np_arange n)) = true.
Proof.
  apply monotone_intro; intros i a b Ha Hb.
  assert (Hi : (S i < Z.to_nat n)%nat).
  { rewrite <- (int_edges_length n); apply nth_error_Some; congruence. }
  rewrite int_edges_nth_error in Ha, Hb by lia.
  injection Ha as <-; injection Hb as <-.
  change (Z.pos (Pos.of_succ_nat i)) with (Z.of_nat (S i)).
  rewrite inject_Z_succ; lra.
Qed.

(** The routine returns what its computing half computed. *)
Lemma nuisance_prediction_hist_hists
  (mutual_information : list (list nat) -> Q) (format_2e : Q -> string)
  (predictions : list (list Q)) (nuisance : ndarray)
  (names : option (list string)) (nuisance_bins prediction_bins : Z)
  (r : hist_result) :
  nuisance_prediction_hist mutual_information format_2e predictions nuisance
    names nuisance_bins prediction_bins = Some r ->
  prediction_hists predictions nuisance nuisance_bins prediction_bins
  = Some (hr_nuisance_bins r, hr_nu_bins r, hr_p_bins r, hr_hists r).
Proof.
  unfold nuisance_prediction_hist; intros H.
  apply bind_some in H; destruct H as [[[[nb nu] pb] hs] [H1 H2]].
  apply bind_some in H2; destruct H2 as [cols [_ H2]].
  injection H2 as <-; exact H1.
Qed.

Lemma prediction_hists_some (predictions : list (list Q)) (nuisance : ndarray)
  (nuisance_bins prediction_bins nb : Z) (nu_bins p_bins : list Q)
  (hists : list (list (list nat))) :
  prediction_hists predictions nuisance nuisance_bins prediction_bins
  = Some (nb, nu_bins, p_bins, hists) ->
  nuisance_edges nuisance nuisance_bins = Some (nb, nu_bins) /\
  np_linspace 0 1 prediction_bins = Some p_bins /\
  mapM (fun proba => np_histogram2d proba (values nuisance) p_bins nu_bins)
       predictions = Some hists.
Proof.
  unfold prediction_hists; intros H.
  apply bind_some in H; destruct H as [[nb' nu'] [H1 H2]].
  apply bind_some in H2; destruct H2 as [pb [H2 H3]].
  apply bind_some in H3; destruct H3 as [hs [H3 H4]].
  injection H4 as -> -> -> ->; auto.
Qed.

(** C2. For an integer-typed nuisance vector of maximum [m], the number
    of nuisance bins is [m + 1] and the edges are the half-integers
    [-1/2, 1/2, ..., m + 1/2] (edge [k] is [k - 1/2], for [k] from 0 to
    [m + 1]), whatever the argument [nuisance_bins] is; the routine
    returns this bin count and these edges; and a vector whose values
    are 0, 1 and 2 gets 3 bins with edges [-1/2, 1/2, 3/2, 5/2]. *)
Theorem integer_nuisance_bins_and_edges (a : list Z) (m : Z) :
  np_max_int a = Some m ->
  (forall nuisance_bins : Z,
     exists nu_bins,
       nuisance_edges (IntArray a) nuisance_bins = Some ((m + 1)%Z, nu_bins) /\
       length nu_bins = Z.to_nat (m + 2) /\
       forall k, (k < length nu_bins)%nat ->
                 nth k nu_bins 0 == inject_Z (Z.of_nat k) - (1#2)) /\
  (forall nb1 nb2 : Z,
     nuisance_edges (IntArray a) nb1 = nuisance_edges (IntArray a) nb2) /\
  (forall mutual_information format_2e predictions names
          nuisance_bins prediction_bins r,
     nuisance_prediction_hist mutual_information format_2e predictions
       (IntArray a) names nuisance_bins prediction_bins = Some r ->
     hr_nuisance_bins r = (m + 1)%Z /\
     length (hr_nu_bins r) = Z.to_nat (m + 2) /\
     forall k, (k < length (hr_nu_bins r))%nat ->
               nth k (hr_nu_bins r) 0 == inject_Z (Z.of_nat k) - (1#2)) /\
  ((forall z, In z a <-> z = 0%Z \/ z = 1%Z \/ z = 2%Z) ->
   forall nuisance_bins : Z,
     nuisance_edges (IntArray a) nuisance_bins
     = Some (3%Z, [-1#2; 1#2; 3#2; 5#2])).
Proof.
  intros Hm.
  assert (Hedges : forall nb, nuisance_edges (IntArray a) nb
            = Some ((m + 1)%Z,
                    map (fun z => inject_Z z - (1#2)) (np_arange (m + 1 + 1)))).
  { intros nb; unfold nuisance_edges; rewrite Hm; reflexivity. }
  set (e := map (fun z => inject_Z z - (1#2)) (np_arange (m + 1 + 1))) in *.
  assert (Hshape : length e = Z.to_nat (m + 2) /\
                   forall k, (k < length e)%nat ->
                             nth k e 0 == inject_Z (Z.of_nat k) - (1#2)).
  { unfold e; rewrite int_edges_length; split; [f_equal; lia|].
    intros k Hk.
    rewrite (nth_error_nth _ k 0 (int_edges_nth_error _ k Hk)); reflexivity. }
  split; [|split; [|split]].
  - intros nb; eexists; split; [apply Hedges | exact Hshape].
  - intros nb1 nb2; rewrite !Hedges; reflexivity.
  - intros mi fmt predictions names nb pb r Hr.
    apply nuisance_prediction_hist_hists, prediction_hists_some in Hr.
    destruct Hr as [Hr _]; rewrite Hedges in Hr.
    injection Hr as <- <-; split; [reflexivity | exact Hshape].
  - intros Hv nb.
    assert (E : m = 2%Z).
    { assert (H2 : np_max_int a = Some 2%Z).
      { apply np_max_int_unique; [apply Hv; auto|].
        intros z Hz; apply Hv in Hz; lia. }
      congruence. }
    rewrite Hedges; unfold e; rewrite E; reflexivity.
Qed.

Lemma integer_nuisance_bins_and_edges_witness :
  nuisance_edges (IntArray [0; 1; 2; 1]%Z) 20
  = Some (3%Z, [-1#2; 1#2; 3#2; 5#2]).
Proof.
  apply (integer_nuisance_bins_and_edges [0; 1; 2; 1]%Z 2%Z); [reflexivity|].
  intros z; simpl; lia.
Defined.

(** In integer mode no bin count comes out of the argument: two calls
    that differ only in [nuisance_bins] compute the same histograms. *)
Lemma integer_mode_ignores_nuisance_bins (predictions : list (list Q))
  (a : list Z) (nb1 nb2 prediction_bins : Z) :
  prediction_hists predictions (IntArray a) nb1 prediction_bins
  = prediction_hists predictions (IntArray a) nb2 prediction_bins.
Proof. reflexivity. Qed.

(** C6 (amended). For a continuous nuisance vector of minimum [mn] and
    maximum [mx], and a bin count [nuisance_bins >= 1], the edges are
    [nuisance_bins + 1] points of equal spacing from
    [mn - 1e-3*(mx - mn)] to [mx + 1e-3*(mx - mn)], and the routine
    returns them; for a vector spanning [0, 10] the first edge is below
    0 by exactly [1e-3 * 10] and the last edge above 10 by exactly
    [1e-3 * 10]. *)
Theorem continuous_nuisance_edges (a : list Q) (mn mx : Q) (nuisance_bins : Z) :
  np_min a = Some mn -> np_max a = Some mx -> (1 <= nuisance_bins)%Z ->
  let lo := mn - (1#1000) * (mx - mn) in
  let hi := mx + (1#1000) * (mx - mn) in
  let width := (hi - lo) / inject_Z nuisance_bins in
  exists nu_bins,
    nuisance_edges (FloatArray a) nuisance_bins = Some (nuisance_bins, nu_bins) /\
    length nu_bins = Z.to_nat (nuisance_bins + 1) /\
    (forall k, (k < length nu_bins)%nat ->
               nth k nu_bins 0 == lo + inject_Z (Z.of_nat k) * width) /\
    (forall k, (S k < length nu_bins)%nat ->
               nth (S k) nu_bins 0 - nth k nu_bins 0 == width) /\
    nth 0 nu_bins 0 == lo /\
    last nu_bins 0 == hi /\
    (forall mutual_information format_2e predictions names prediction_bins r,
       nuisance_prediction_hist mutual_information format_2e predictions
         (FloatArray a) names nuisance_bins prediction_bins = Some r ->
       hr_nuisance_bins r = nuisance_bins /\ hr_nu_bins r = nu_bins) /\
    (mn == 0 -> mx == 10 ->
     0 - nth 0 nu_bins 0 == (1#1000) * 10 /\
     last nu_bins 0 - 10 == (1#1000) * 10).
Proof.
  intros Hmn Hmx Hnb lo hi width.
  destruct (np_linspace_total lo hi (nuisance_bins + 1)) as [l Hl]; [lia|].
  assert (Hedges : nuisance_edges (FloatArray a) nuisance_bins
                   = Some (nuisance_bins, l)).
  { unfold nuisance_edges; rewrite Hmx, Hmn; simpl.
    fold lo hi; rewrite Hl; reflexivity. }
  assert (Hn2 : (2 <= nuisance_bins + 1)%Z) by lia.
  pose proof (np_linspace_length _ _ _ _ Hl) as Hlen.
  assert (Hnth : forall k, (k < length l)%nat ->
                           nth k l 0 == lo + inject_Z (Z.of_nat k) * width).
  { intros k Hk; rewrite Hlen in Hk.
    rewrite (np_linspace_nth _ _ _ _ k Hn2 Hl Hk).
    unfold width; replace (nuisance_bins + 1 - 1)%Z with nuisance_bins by lia.
    reflexivity. }
  assert (Hfirst : nth 0 l 0 == lo).
  { rewrite Hnth by lia; change (inject_Z (Z.of_nat 0)) with 0; ring. }
  assert (Hlast : last l 0 == hi).
  { destruct (np_linspace_last _ _ _ _ Hn2 Hl) as [r ->].
    rewrite last_last; reflexivity. }
  exists l.
  split; [exact Hedges|]. split; [exact Hlen|]. split; [exact Hnth|].
  split.
  { intros k Hk.
    rewrite (Hnth (S k)), (Hnth k) by lia.
    rewrite inject_Z_succ; ring. }
  split; [exact Hfirst|]. split; [exact Hlast|].
  split.
  { intros mi fmt predictions names prediction_bins r Hr.
    apply nuisance_prediction_hist_hists, prediction_hists_some in Hr.
    destruct Hr as [Hr _]; rewrite Hedges in Hr.
    injection Hr as <- <-; split; reflexivity. }
  intros E0 E10; split.
  - rewrite Hfirst; unfold lo; rewrite E0, E10; ring.
  - rewrite Hlast; unfold hi; rewrite E0, E10; ring.
Qed.

Lemma continuous_nuisance_edges_witness :
  exists nu_bins,
    nuisance_edges (FloatArray [0; 10; 5]) 4 = Some (4%Z, nu_bins) /\
    length nu_bins = 5%nat /\
    0 - nth 0 nu_bins 0 == (1#1000) * 10 /\
    last nu_bins 0 - 10 == (1#1000) * 10.
Proof.
  destruct (continuous_nuisance_edges [0; 10; 5] 0 10 4)
    as [nu_bins [H1 [H2 [_ [_ [_ [_ [_ H3]]]]]]]];
    [reflexivity | reflexivity | lia |].
  exists nu_bins; repeat split; [exact H1 | exact H2 | |];
    apply H3; reflexivity.
Defined.

(** C6 as stated fails when [nuisance_bins = 0]: there is one edge,
    [min - 1e-3*(max - min)], and it is also the last one. *)
Lemma continuous_nuisance_edges_zero_bins :
  np_min [0; 10] = Some 0 /\ np_max [0; 10] = Some 10 /\
  exists e,
    nuisance_edges (FloatArray [0; 10]) 0 = Some (0%Z, [e]) /\
    e == - (1#100) /\
    ~ last [e] 0 - 10 == (1#1000) * 10.
Proof.
  split; [reflexivity | split; [reflexivity|]].
  eexists; split; [reflexivity | split; [reflexivity|]].
  simpl; intros H; discriminate H.
Qed.

(** ** The histograms of [nuisance_prediction_hist] *)

Lemma mapM_in (A B : Type) (f : A -> option B) (l : list A) (bs : list B) (b : B) :
  mapM f l = Some bs -> In b bs -> exists a, In a l /\ f a = Some b.
Proof.
  revert bs; induction l as [|x r IH]; simpl; intros bs H Hb.
  - injection H as <-; destruct Hb.
  - destruct (f x) as [y|] eqn:Hf; simpl in H; [|discriminate].
    destruct (mapM f r) as [bs'|]; simpl in H; [|discriminate].
    injection H as <-; destruct Hb as [<-|Hb].
    + exists x; auto.
    + destruct (IH bs' eq_refl Hb) as [a [Ha Hfa]]; exists a; auto.
Qed.

Lemma np_min_le_max (a : list Q) (mn mx : Q) :
  np_min a = Some mn -> np_max a = Some mx -> mn <= mx.
Proof.
  intros Hmn Hmx.
  destruct (np_min_spec _ _ Hmn) as [Hin _].
  destruct (np_max_spec _ _ Hmx) as [_ Hle]; auto.
Qed.

(** The nuisance edges never decrease, and there is one more edge than
    the bin count says (none at all when that count is below -1). *)
Lemma nuisance_edges_shape (nuisance : ndarray) (nuisance_bins nb : Z)
  (nu_bins : list Q) :
  nuisance_edges nuisance nuisance_bins = Some (nb, nu_bins) ->
  monotone nu_bins = true /\ length nu_bins = Z.to_nat (nb + 1).
Proof.
  destruct nuisance as [a|a]; unfold nuisance_edges; intros H.
  - apply bind_some in H; destruct H as [m [_ H]].
    injection H as <- <-; split;
      [apply int_edges_monotone | apply int_edges_length].
  - apply bind_some in H; destruct H as [mx [Hmx H]].
    apply bind_some in H; destruct H as [mn [Hmn H]].
    apply bind_some in H; destruct H as [l [Hl H]].
    injection H as <- <-; split.
    + pose proof (np_min_le_max _ _ _ Hmn Hmx) as Hle.
      apply (fun Hs => np_linspace_monotone _ _ _ l Hs Hl); lra.
    + apply (np_linspace_length _ _ _ _ Hl).
Qed.

(** C1 (amended). When there are at least two prediction edges
    ([prediction_bins >= 2]) and at least one nuisance bin is
    constructed, every prediction lies in [0, 1] and every nuisance
    value lies within the constructed nuisance edges, the sum of the
    cells of each model's histogram is the number of samples; and the
    histograms are computed as soon as every prediction vector is as
    long as the nuisance vector. *)
Theorem histogram_total_is_sample_count (predictions : list (list Q))
  (nuisance : ndarray) (nuisance_bins prediction_bins nb : Z)
  (nu_bins : list Q) :
  nuisance_edges nuisance nuisance_bins = Some (nb, nu_bins) ->
  (1 <= nb)%Z ->
  (2 <= prediction_bins)%Z ->
  (forall proba p, In proba predictions -> In p proba -> 0 <= p /\ p <= 1) ->
  (forall v, In v (values nuisance) -> within nu_bins v) ->
  (forall p_bins hists,
     prediction_hists predictions nuisance nuisance_bins prediction_bins
     = Some (nb, nu_bins, p_bins, hists) ->
     length hists = length predictions /\
     forall h, In h hists -> table_sum h = length (values nuisance)) /\
  (forall mutual_information format_2e names r,
     nuisance_prediction_hist mutual_information format_2e predictions nuisance
       names nuisance_bins prediction_bins = Some r ->
     length (hr_hists r) = length predictions /\
     forall h, In h (hr_hists r) -> table_sum h = length (values nuisance)) /\
  ((forall proba, In proba predictions ->
                  length proba = length (values nuisance)) ->
   exists p_bins hists,
     prediction_hists predictions nuisance nuisance_bins prediction_bins
     = Some (nb, nu_bins, p_bins, hists)).
Proof.
  intros Hedges Hnb Hpb Hpred Hnu.
  destruct (nuisance_edges_shape _ _ _ _ Hedges) as [Hmono Hlen].
  destruct (np_linspace_total 0 1 prediction_bins) as [p_bins Hp]; [lia|].
  pose proof (np_linspace_length _ _ _ _ Hp) as Hplen.
  assert (Hpmono : monotone p_bins = true).
  { apply (np_linspace_monotone 0 1 prediction_bins); [lra | exact Hp]. }
  assert (Hone : forall proba, In proba predictions ->
            length proba = length (values nuisance) ->
            exists h, np_histogram2d proba (values nuisance) p_bins nu_bins = Some h
                      /\ table_sum h = length (values nuisance)).
  { intros proba Hin Hl.
    destruct (np_histogram2d_inside proba (values nuisance) p_bins nu_bins)
      as [h [Hh Hs]]; try assumption; try lia.
    - intros v Hv; destruct (Hpred proba v Hin Hv).
      apply (np_linspace_within 0 1 prediction_bins); assumption.
    - exists h; split; [exact Hh | lia]. }
  assert (Hcond : forall p_bins' hists,
            prediction_hists predictions nuisance nuisance_bins prediction_bins
            = Some (nb, nu_bins, p_bins', hists) ->
            length hists = length predictions /\
            forall h, In h hists -> table_sum h = length (values nuisance)).
  { intros p_bins' hists Hrun.
    destruct (prediction_hists_some _ _ _ _ _ _ _ _ Hrun) as [_ [Hp' Hh]].
    assert (p_bins' = p_bins) by congruence; subst p_bins'.
    split; [apply (mapM_length _ _ _ _ _ Hh)|].
    intros h Hin; destruct (mapM_in _ _ _ _ _ _ Hh Hin) as [proba [Hp1 Hp2]].
    destruct (np_histogram2d_some _ _ _ _ _ Hp2) as [_ [_ [_ [_ [Hl _]]]]].
    destruct (Hone proba Hp1 Hl) as [h' [Hh' Hs]]; congruence. }
  split; [exact Hcond|]. split.
  - intros mi fmt names r Hr.
    pose proof (nuisance_prediction_hist_hists _ _ _ _ _ _ _ _ Hr) as Hrun.
    destruct (prediction_hists_some _ _ _ _ _ _ _ _ Hrun) as [He _].
    rewrite Hedges in He; injection He as E1 E2.
    rewrite <- E1, <- E2 in Hrun; apply (Hcond _ _ Hrun).
  - intros Hl.
    destruct (mapM_total _ _
                (fun proba => np_histogram2d proba (values nuisance) p_bins nu_bins)
                predictions) as [hists Hh].
    { intros proba Hin; destruct (Hone proba Hin (Hl proba Hin)) as [h [Hh _]]; eauto. }
    exists p_bins, hists.
    unfold prediction_hists; rewrite Hedges; cbn [bind]; rewrite Hp; cbn [bind].
    rewrite Hh; reflexivity.
Qed.

Lemma histogram_total_is_sample_count_witness :
  exists p_bins hists,
    prediction_hists [[1#10; 9#10; 4#10; 6#10]] (IntArray [0; 1; 0; 1]%Z) 20 3
    = Some (2%Z, [-1#2; 1#2; 3#2], p_bins, hists) /\
    length hists = 1%nat /\
    forall h, In h hists -> table_sum h = 4%nat.
Proof.
  destruct (histogram_total_is_sample_count
              [[1#10; 9#10; 4#10; 6#10]] (IntArray [0; 1; 0; 1]%Z) 20 3 2
              [-1#2; 1#2; 3#2]) as [Hsum [_ Hrun]].
  - reflexivity.
  - lia.
  - lia.
  - intros proba p [<-|[]] [<-|[<-|[<-|[<-|[]]]]]; split; discriminate.
  - intros v [<-|[<-|[<-|[<-|[]]]]]; split; discriminate.
  - destruct Hrun as [p_bins [hists Hrun]].
    + intros proba [<-|[]]; reflexivity.
    + exists p_bins, hists; split; [exact Hrun | apply (Hsum _ _ Hrun)].
Defined.

(** C1 as stated fails when an axis is left without a bin. With
    [nuisance_bins = 0] and a constant continuous nuisance vector the
    only nuisance edge is that constant: the sample is inside [0, 1]
    and inside the nuisance edges, yet the table has no column. With
    [prediction_bins = 1] the single prediction edge leaves no
    prediction bin: the table has no row and the one sample is not
    counted either. *)
Lemma histogram_total_without_bins :
  (0 <= 1#2 /\ 1#2 <= 1 /\
   exists e p_bins h,
     nuisance_edges (FloatArray [5]) 0 = Some (0%Z, [e]) /\
     within [e] 5 /\
     prediction_hists [[1#2]] (FloatArray [5]) 0 20
     = Some (0%Z, [e], p_bins, [h]) /\
     table_sum h = 0%nat /\
     table_sum h <> length (values (FloatArray [5]))) /\
  (nuisance_edges (IntArray [0%Z]) 20 = Some (1%Z, [-1#2; 1#2]) /\
   within [-1#2; 1#2] (inject_Z 0) /\
   prediction_hists [[1#2]] (IntArray [0%Z]) 20 1
   = Some (1%Z, [-1#2; 1#2], [0], [[]]) /\
   (exists r,
      nuisance_prediction_hist (fun _ => 0) (fun _ => EmptyString)
        [[1#2]] (IntArray [0%Z]) None 20 1 = Some r /\
      hr_hists r = [[]]) /\
   table_sum [] <> length (values (IntArray [0%Z]))).
Proof.
  split.
  - split; [discriminate | split; [discriminate|]].
    eexists; eexists; eexists.
    split; [reflexivity|].
    split; [split; discriminate|].
    split; [reflexivity|].
    split; [vm_compute; reflexivity | vm_compute; discriminate].
  - split; [reflexivity|].
    split; [split; discriminate|].
    split; [reflexivity|].
    split; [eexists; split; reflexivity|].
    simpl; discriminate.
Qed.

(** ** Negative values in an integer nuisance vector *)

Lemma proper_cells_le (A B : Type) (f : A -> nat) (g : B -> nat)
  (ok : B -> bool) (n m : nat) (x : list A) (y : list B) :
  (forall b, (1 <= g b)%nat -> ok b = true) ->
  (length (filter (proper_cell n m) (combine (map f x) (map g y)))
   <= length (filter ok y))%nat.
Proof.
  intros H; revert y; induction x as [|a x IH]; intros [|b y]; simpl; try lia.
  specialize (IH y).
  destruct (proper_cell n m (f a, g b)) eqn:E.
  - unfold proper_cell in E; cbn [fst snd] in E.
    apply andb_true_iff in E; destruct E as [_ E].
    apply andb_true_iff in E; destruct E as [E _].
    apply Nat.leb_le in E; rewrite (H b E); simpl; lia.
  - destruct (ok b); simpl; lia.
Qed.

Lemma negative_below_first_edge (z : Z) : (z < 0)%Z -> inject_Z z < inject_Z 0 - (1#2).
Proof.
  intros H.
  assert (Hz : inject_Z z <= inject_Z (-1)) by (rewrite <- Zle_Qle; lia).
  change (inject_Z (-1)) with (-1 # 1) in Hz.
  change (inject_Z 0) with 0; lra.
Qed.

Lemma int_edges_first (n : Z) :
  (1 <= n)%Z ->
  exists rest,
    map (fun z => inject_Z z - (1#2)) (np_arange n) = (inject_Z 0 - (1#2)) :: rest.
Proof.
  intros H; unfold np_arange.
  destruct (Z.to_nat n) as [|k] eqn:E; [lia|].
  simpl; eexists; reflexivity.
Qed.

(** C10 (amended). For an integer-typed nuisance vector with a negative
    value and a maximum of at least -1, with at least one prediction
    edge and prediction vectors as long as the nuisance vector: the
    edges start at -1/2, every negative sample gets the outlier bin
    number 0 on the nuisance axis, and each model's histogram counts
    no more than the non-negative samples, so that its total is
    strictly below the sample count. *)
Theorem negative_integer_nuisance_dropped (predictions : list (list Q))
  (a : list Z) (m nuisance_bins prediction_bins : Z) :
  np_max_int a = Some m ->
  (-1 <= m)%Z ->
  (1 <= prediction_bins)%Z ->
  (exists z, In z a /\ (z < 0)%Z) ->
  (forall proba, In proba predictions -> length proba = length a) ->
  exists nu_bins p_bins hists,
    prediction_hists predictions (IntArray a) nuisance_bins prediction_bins
    = Some ((m + 1)%Z, nu_bins, p_bins, hists) /\
    (exists rest, nu_bins = (inject_Z 0 - (1#2)) :: rest) /\
    (forall z last, In z a -> (z < 0)%Z ->
                    bin_number nu_bins last (inject_Z z) = 0%nat) /\
    length hists = length predictions /\
    forall h, In h hists ->
      (table_sum h <= length (filter (fun z => 0 <=? z)%Z a))%nat /\
      (table_sum h < length a)%nat.
Proof.
  intros Hm Hm1 Hpb [zneg [Hzin Hzneg]] Hlen.
  set (nu_bins := map (fun z => inject_Z z - (1#2)) (np_arange (m + 1 + 1))).
  assert (Hedges : nuisance_edges (IntArray a) nuisance_bins
                   = Some ((m + 1)%Z, nu_bins)).
  { unfold nuisance_edges; rewrite Hm; reflexivity. }
  destruct (int_edges_first (m + 1 + 1)) as [rest Hfirst]; [lia|].
  fold nu_bins in Hfirst.
  destruct (np_linspace_total 0 1 prediction_bins) as [p_bins Hp]; [lia|].
  assert (Hpmono : monotone p_bins = true).
  { apply (np_linspace_monotone 0 1 prediction_bins); [lra | exact Hp]. }
  assert (Hpne : p_bins <> []).
  { intros E; apply (f_equal (@length Q)) in E.
    rewrite (np_linspace_length _ _ _ _ Hp) in E; simpl in E; lia. }
  assert (Hbelow : forall z last, (z < 0)%Z ->
                     bin_number nu_bins last (inject_Z z) = 0%nat).
  { intros z last Hz; rewrite Hfirst.
    apply bin_number_below, negative_below_first_edge, Hz. }
  assert (Hone : forall proba, In proba predictions ->
            exists h, np_histogram2d proba (values (IntArray a)) p_bins nu_bins
                      = Some h).
  { intros proba Hin; apply np_histogram2d_total; try assumption.
    - simpl; rewrite length_map; apply Hlen, Hin.
    - apply int_edges_monotone.
    - rewrite Hfirst; discriminate. }
  destruct (mapM_total _ _
              (fun proba => np_histogram2d proba (values (IntArray a)) p_bins nu_bins)
              predictions Hone) as [hists Hh].
  exists nu_bins, p_bins, hists.
  split; [|split; [|split; [|split]]].
  - unfold prediction_hists; rewrite Hedges; cbn [bind]; rewrite Hp; cbn [bind].
    rewrite Hh; reflexivity.
  - exists rest; exact Hfirst.
  - intros z last _ Hz; apply Hbelow, Hz.
  - apply (mapM_length _ _ _ _ _ Hh).
  - intros h Hin.
    destruct (mapM_in _ _ _ _ _ _ Hh Hin) as [proba [Hp1 Hp2]].
    assert (Hle : (table_sum h <= length (filter (fun z => 0 <=? z)%Z a))%nat).
    { destruct (np_histogram2d_some _ _ _ _ _ Hp2)
        as [xlast [ylast [xr [yr [_ [_ [_ ->]]]]]]].
      rewrite core_sum; simpl values; rewrite map_map.
      apply proper_cells_le; intros z Hz.
      apply Z.leb_le; destruct (Z.lt_ge_cases z 0) as [Hneg|]; [|assumption].
      rewrite (Hbelow z ylast Hneg) in Hz; lia. }
    split; [exact Hle|].
    apply Nat.le_lt_trans with (1 := Hle).
    apply filter_length_lt; exists zneg; split; [exact Hzin|].
    apply Z.leb_gt, Hzneg.
Qed.

Lemma negative_integer_nuisance_dropped_witness :
  exists nu_bins p_bins hists,
    prediction_hists [[1#10; 9#10; 4#10; 6#10]] (IntArray [0; -1; 0; 1]%Z) 20 3
    = Some (2%Z, nu_bins, p_bins, hists) /\
    (exists rest, nu_bins = (inject_Z 0 - (1#2)) :: rest) /\
    (forall z last, In z [0; -1; 0; 1]%Z -> (z < 0)%Z ->
                    bin_number nu_bins last (inject_Z z) = 0%nat) /\
    length hists = 1%nat /\
    forall h, In h hists ->
      (table_sum h <= 3)%nat /\ (table_sum h < 4)%nat.
Proof.
  apply (negative_integer_nuisance_dropped
           [[1#10; 9#10; 4#10; 6#10]] [0; -1; 0; 1]%Z 1 20 3).
  - reflexivity.
  - lia.
  - lia.
  - exists (-1)%Z; split; [simpl; auto | lia].
  - intros proba [<-|[]]; reflexivity.
Defined.

(** C10 as stated fails when the maximum is below -1: [np.arange] of a
    non-positive count is empty, so there is no edge at all and the
    histogram call raises instead of dropping the sample. *)
Lemma negative_integer_nuisance_raises :
  In (-3)%Z [-3]%Z /\ (-3 < 0)%Z /\
  nuisance_edges (IntArray [-3]%Z) 20 = Some ((-2)%Z, []) /\
  prediction_hists [[1#2]] (IntArray [-3]%Z) 20 20 = None /\
  nuisance_prediction_hist (fun _ => 0) (fun _ => EmptyString)
    [[1#2]] (IntArray [-3]%Z) None 20 20 = None.
Proof.
  split; [left; reflexivity|].
  split; [lia|].
  split; [reflexivity|].
  split; reflexivity.
Qed.

(** ** Replaying the subplots of [nuisance_prediction_hist] *)

Lemma mapM_map (A B : Type) (f : A -> option B) (g : A -> B)
  (l : list A) (bs : list B) :
  mapM f l = Some bs ->
  (forall a b, In a l -> f a = Some b -> b = g a) ->
  bs = map g l.
Proof.
  revert bs; induction l as [|x r IH]; simpl; intros bs H Hg.
  - injection H as <-; reflexivity.
  - destruct (f x) as [y|] eqn:Hf; simpl in H; [|discriminate].
    destruct (mapM f r) as [bs'|]; simpl in H; [|discriminate].
    injection H as <-; f_equal; [apply Hg; auto | apply IH; auto].
Qed.

Lemma concat_nested (A B C : Type) (g : A -> B -> list C)
  (l1 : list A) (l2 : list B) :
  concat (map (fun j => concat (map (g j) l2)) l1)
  = concat (map (fun p => g (fst p) (snd p)) (list_prod l1 l2)).
Proof.
  induction l1 as [|a l1 IH]; simpl; [reflexivity|].
  rewrite map_app, concat_app, IH, map_map; reflexivity.
Qed.

Lemma NoDup_list_prod (A B : Type) (l1 : list A) (l2 : list B) :
  NoDup l1 -> NoDup l2 -> NoDup (list_prod l1 l2).
Proof.
  intros H1 H2; induction H1 as [|a l1 Ha H1 IH]; simpl; [constructor|].
  apply NoDup_app.
  - apply NoDup_map_NoDup_ForallPairs; [|exact H2].
    intros x y _ _ E; injection E as E; exact E.
  - exact IH.
  - intros [x y] Hin Hin'.
    apply in_map_iff in Hin; destruct Hin as [y' [E _]]; injection E as <- _.
    apply in_prod_iff in Hin'; destruct Hin' as [Hx _]; contradiction.
Qed.

Lemma replay_app (log1 log2 : list draw) (fig : figure) :
  replay (log1 ++ log2) fig = replay log2 (replay log1 fig).
Proof. apply fold_left_app. Qed.

Lemma replay_block (n m : Z) (b : block) (fig : figure) (k : Z) :
  axes_at (replay (block_cmds n m b) fig) k
  = if (k =? b_index b)%Z then draw_block b (axes_at fig k) else axes_at fig k.
Proof.
  destruct b as [idx [[xs ys] lbl] [t|]]; unfold block_cmds, draw_block; simpl;
    destruct (k =? idx)%Z; reflexivity.
Qed.

(** Replaying a sequence of blocks acts on each axes separately: the
    axes number [k] receives the blocks that select it, in order. *)
Lemma replay_blocks (n m : Z) (blocks : list block) (fig : figure) (k : Z) :
  axes_at (replay (concat (map (block_cmds n m) blocks)) fig) k
  = fold_left (fun a b => if (k =? b_index b)%Z then draw_block b a else a)
              blocks (axes_at fig k).
Proof.
  revert fig; induction blocks as [|b blocks IH]; intros fig; [reflexivity|].
  cbn [map concat fold_left].
  rewrite replay_app, IH, replay_block; reflexivity.
Qed.

Lemma fold_blocks_none (blocks : list block) (a : axes) (k : Z) :
  ~ In k (map b_index blocks) ->
  fold_left (fun a b => if (k =? b_index b)%Z then draw_block b a else a)
            blocks a = a.
Proof.
  revert a; induction blocks as [|b blocks IH]; intros a H; [reflexivity|].
  cbn [fold_left]; simpl in H.
  destruct (Z.eqb_spec k (b_index b)) as [E|E]; [exfalso; apply H; auto|].
  apply IH; intros Hin; apply H; auto.
Qed.

Lemma fold_blocks_unique (blocks : list block) (b0 : block) (a : axes) :
  NoDup (map b_index blocks) -> In b0 blocks ->
  fold_left (fun a b => if (b_index b0 =? b_index b)%Z then draw_block b a else a)
            blocks a = draw_block b0 a.
Proof.
  revert a; induction blocks as [|b blocks IH]; intros a Hnd Hin; [destruct Hin|].
  cbn [fold_left]; simpl in Hnd; inversion Hnd as [|x l Hx Hnd']; subst.
  destruct Hin as [->|Hin].
  - rewrite Z.eqb_refl; apply fold_blocks_none; exact Hx.
  - destruct (Z.eqb_spec (b_index b0) (b_index b)) as [E|E].
    + exfalso; apply Hx; rewrite <- E; apply in_map; exact Hin.
    + apply IH; assumption.
Qed.

Lemma subplot_index_injective (n_models i j i' j' : nat) :
  (j < n_models)%nat -> (j' < n_models)%nat ->
  (Z.of_nat i * Z.of_nat n_models + Z.of_nat j + 1
   = Z.of_nat i' * Z.of_nat n_models + Z.of_nat j' + 1)%Z ->
  i = i' /\ j = j'.
Proof.
  intros Hj Hj' E.
  assert (Hi : i = i') by nia.
  subst i'; split; [reflexivity | lia].
Qed.

Section HistFigure.

Variable mutual_information : list (list nat) -> Q.
Variable format_2e : Q -> string.

Lemma title_text_expected (names : option (list string)) (j : nat)
  (hist : list (list nat)) (t : string) :
  title_text format_2e names j (mutual_information hist) = Some t ->
  t = expected_title mutual_information format_2e names j hist.
Proof.
  unfold title_text, expected_title; destruct names as [ns|]; intros H.
  - apply bind_some in H; destruct H as [name [Hn H]].
    injection H as <-; rewrite (nth_error_nth ns j EmptyString Hn); reflexivity.
  - injection H as <-; reflexivity.
Qed.

Lemma subplot_cmds_block (names : option (list string)) (n_models : nat)
  (nuisance_bins : Z) (nu_bins p_bins : list Q)
  (hists : list (list (list nat))) (hist : list (list nat)) (j i : nat)
  (cmds : list draw) :
  nth_error hists j = Some hist ->
  (i < Z.to_nat nuisance_bins)%nat ->
  subplot_cmds format_2e names n_models nuisance_bins nu_bins p_bins hist
    (mutual_information hist) j i = Some cmds ->
  cmds = block_cmds nuisance_bins (Z.of_nat n_models)
           (subplot_block mutual_information format_2e names n_models
              nuisance_bins p_bins hists j i).
Proof.
  intros Hh Hi H; unfold subplot_cmds in H.
  apply bind_some in H; destruct H as [col [Hcol H]].
  assert (Ecol : map count_value col = expected_column nuisance_bins i hist).
  { unfold get_column in Hcol; unfold expected_column.
    destruct ((0 <=? nuisance_bins - Z.of_nat i - 1)
              && (nuisance_bins - Z.of_nat i - 1 <? Z.of_nat (length nu_bins - 1)))%Z.
    - injection Hcol as <-; rewrite map_map; reflexivity.
    - destruct ((- Z.of_nat (length nu_bins - 1) <=? nuisance_bins - Z.of_nat i - 1)
                && (nuisance_bins - Z.of_nat i - 1 <? 0))%Z eqn:E; [|discriminate].
      apply andb_true_iff in E; destruct E as [_ E]; apply Z.ltb_lt in E; lia. }
  unfold block_cmds, subplot_block; cbn [b_index b_line b_title fst snd].
  rewrite (nth_error_nth hists j [] Hh), <- Ecol.
  destruct (i =? 0)%nat.
  - apply bind_some in H; destruct H as [t [Ht H]].
    injection H as <-; rewrite (title_text_expected _ _ _ _ Ht); reflexivity.
  - injection H as <-; reflexivity.
Qed.

(** The log of a successful call: the opening of the figure, then the
    blocks of the subplots, model after model and row after row. *)
Lemma nuisance_prediction_hist_log (predictions : list (list Q))
  (nuisance : ndarray) (names : option (list string))
  (nuisance_bins prediction_bins : Z) (r : hist_result) :
  nuisance_prediction_hist mutual_information format_2e predictions nuisance
    names nuisance_bins prediction_bins = Some r ->
  let n_models := length predictions in
  length (hr_hists r) = n_models /\
  hr_log r
  = Subplots (hr_nuisance_bins r) (Z.of_nat n_models)
             (5 * Z.of_nat n_models, 2 * hr_nuisance_bins r)%Z
    :: concat (map (block_cmds (hr_nuisance_bins r) (Z.of_nat n_models))
                   (map (fun p => subplot_block mutual_information format_2e names
                                    n_models (hr_nuisance_bins r) (hr_p_bins r)
                                    (hr_hists r) (fst p) (snd p))
                        (list_prod (seq 0 n_models)
                                   (seq 0 (Z.to_nat (hr_nuisance_bins r)))))).
Proof.
  intros H n_models; unfold nuisance_prediction_hist in H.
  apply bind_some in H; destruct H as [[[[nb nu] pb] hs] [H1 H2]].
  apply bind_some in H2; destruct H2 as [cols [Hcols H2]].
  injection H2 as <-; cbn [hr_hists hr_log hr_nuisance_bins hr_p_bins].
  apply prediction_hists_some in H1; destruct H1 as [_ [_ Hhs]].
  split; [apply (mapM_length _ _ _ _ _ Hhs)|].
  f_equal; fold n_models in Hcols |- *.
  rewrite map_map.
  rewrite <- (concat_nested _ _ _
                (fun j i => block_cmds nb (Z.of_nat n_models)
                              (subplot_block mutual_information format_2e names
                                 n_models nb pb hs j i))).
  f_equal.
  apply (mapM_map _ _ _ _ _ _ Hcols).
  intros j c Hj Hc; unfold model_cmds in Hc.
  apply bind_some in Hc; destruct Hc as [hist [Hh Hc]].
  apply bind_some in Hc; destruct Hc as [cells [Hcells Hc]].
  injection Hc as <-; f_equal.
  apply (mapM_map _ _ _ _ _ _ Hcells).
  intros i c Hi Hc; apply in_seq in Hi.
  apply (subplot_cmds_block names n_models nb nu pb hs hist j i c Hh); [lia | exact Hc].
Qed.

(** C7. After a successful call, the axes in row [i] of the column of
    model [j] (number [i * n_models + j + 1] of the grid) hold exactly
    one line: the bin midpoints against the histogram column of
    nuisance bin [nuisance_bins - i - 1], so the last nuisance bin is
    in the top row. The axes are titled in the top row only, with
    the model name (or [Model j] when there are no names) followed by
    the mutual information of the model's table formatted by [%.2e]. *)
Theorem subplot_rows_reversed_and_titled (predictions : list (list Q))
  (nuisance : ndarray) (names : option (list string))
  (nuisance_bins prediction_bins : Z) (r : hist_result) (fig0 : figure) :
  nuisance_prediction_hist mutual_information format_2e predictions nuisance
    names nuisance_bins prediction_bins = Some r ->
  let n_models := length predictions in
  let fig := replay (hr_log r) fig0 in
  forall i j, (i < Z.to_nat (hr_nuisance_bins r))%nat -> (j < n_models)%nat ->
    exists hist,
      nth_error (hr_hists r) j = Some hist /\
      ax_lines (axes_at fig (Z.of_nat i * Z.of_nat n_models + Z.of_nat j + 1))
      = [(midpoints (hr_p_bins r),
          map (fun row =>
                 count_value
                   (nth (Z.to_nat (hr_nuisance_bins r - Z.of_nat i - 1)) row 0%nat))
              hist,
          None)] /\
      ax_title (axes_at fig (Z.of_nat i * Z.of_nat n_models + Z.of_nat j + 1))
      = if (i =? 0)%nat
        then Some (match names with
                   | Some ns =>
                       nth j ns EmptyString ++ " (MI="
                         ++ format_2e (mutual_information hist) ++ ")"
                   | None =>
                       "Model " ++ string_of_nat j ++ " (MI="
                         ++ format_2e (mutual_information hist) ++ ")"
                   end)%string
        else None.
Proof.
  intros H n_models fig i j Hi Hj.
  destruct (nuisance_prediction_hist_log _ _ _ _ _ _ H) as [Hlen Hlog].
  fold n_models in Hlen, Hlog.
  destruct (nth_error (hr_hists r) j) as [hist|] eqn:Hh;
    [|apply nth_error_None in Hh; lia].
  exists hist; split; [reflexivity|].
  set (blk := subplot_block mutual_information format_2e names n_models
                (hr_nuisance_bins r) (hr_p_bins r) (hr_hists r)) in *.
  set (blocks := map (fun p => blk (fst p) (snd p))
                     (list_prod (seq 0 n_models)
                                (seq 0 (Z.to_nat (hr_nuisance_bins r))))) in *.
  assert (Hax : axes_at fig (b_index (blk j i)) = draw_block (blk j i) blank).
  { unfold fig; rewrite Hlog.
    change (replay (?c :: ?l) fig0) with (replay l (step fig0 c)).
    rewrite replay_blocks; cbn [step axes_at].
    apply fold_blocks_unique.
    - unfold blocks; rewrite map_map.
      apply NoDup_map_NoDup_ForallPairs.
      + intros [j1 i1] [j2 i2] H1 H2 E.
        apply in_prod_iff in H1, H2; destruct H1 as [H1 _], H2 as [H2 _].
        apply in_seq in H1, H2; cbn [fst snd blk subplot_block b_index] in E.
        unfold blk, subplot_block in E; cbn [b_index] in E.
        destruct (subplot_index_injective n_models i1 j1 i2 j2) as [-> ->];
          [lia | lia | exact E | reflexivity].
      + apply NoDup_list_prod; apply seq_NoDup.
    - unfold blocks.
      apply (in_map (fun p => blk (fst p) (snd p)) _ (j, i)).
      apply in_prod_iff; split; apply in_seq; lia. }
  change (Z.of_nat i * Z.of_nat n_models + Z.of_nat j + 1)%Z
    with (b_index (blk j i)).
  rewrite Hax; unfold draw_block, blk, subplot_block, blank;
    cbn [ax_lines ax_title b_line b_title app].
  rewrite (nth_error_nth (hr_hists r) j [] Hh).
  split; [reflexivity|].
  destruct (i =? 0)%nat; reflexivity.
Qed.

End HistFigure.

(** The drawing half never raises on its own account when the names,
    if any, cover the models. *)
Lemma nuisance_prediction_hist_total
  (mutual_information : list (list nat) -> Q) (format_2e : Q -> string)
  (predictions : list (list Q)) (nuisance : ndarray)
  (names : option (list string)) (nuisance_bins prediction_bins nb : Z)
  (nu_bins p_bins : list Q) (hists : list (list (list nat))) :
  prediction_hists predictions nuisance nuisance_bins prediction_bins
  = Some (nb, nu_bins, p_bins, hists) ->
  match names with
  | Some ns => (length predictions <= length ns)%nat
  | None => True
  end ->
  exists r,
    nuisance_prediction_hist mutual_information format_2e predictions nuisance
      names nuisance_bins prediction_bins = Some r /\
    hr_nuisance_bins r = nb /\ hr_nu_bins r = nu_bins /\
    hr_p_bins r = p_bins /\ hr_hists r = hists.
Proof.
  intros Hrun Hnames.
  destruct (prediction_hists_some _ _ _ _ _ _ _ _ Hrun) as [Hedges [_ Hhs]].
  destruct (nuisance_edges_shape _ _ _ _ Hedges) as [_ Hlen].
  pose proof (mapM_length _ _ _ _ _ Hhs) as Hhl.
  destruct (mapM_total _ _
              (model_cmds mutual_information format_2e names (length predictions)
                 nb nu_bins p_bins hists)
              (seq 0 (length predictions))) as [cols Hcols].
  { intros j Hj; apply in_seq in Hj; unfold model_cmds.
    destruct (nth_error hists j) as [hist|] eqn:Hh;
      [|apply nth_error_None in Hh; lia].
    cbn [bind].
    destruct (mapM_total _ _
                (subplot_cmds format_2e names (length predictions) nb nu_bins
                   p_bins hist (mutual_information hist) j)
                (seq 0 (Z.to_nat nb))) as [cells Hcells].
    - intros i Hi; apply in_seq in Hi; unfold subplot_cmds, get_column.
      destruct (Z.leb_spec 0 (nb - Z.of_nat i - 1)); [|lia].
      destruct (Z.ltb_spec (nb - Z.of_nat i - 1) (Z.of_nat (length nu_bins - 1)));
        [|lia].
      cbn [andb bind].
      destruct (Nat.eqb_spec i 0); [|eexists; reflexivity].
      unfold title_text; destruct names as [ns|]; [|eexists; reflexivity].
      destruct (nth_error ns j) as [name|] eqn:En;
        [eexists; reflexivity | apply nth_error_None in En; lia].
    - rewrite Hcells; eexists; reflexivity. }
  eexists; split.
  - unfold nuisance_prediction_hist; rewrite Hrun; cbn [bind].
    rewrite Hcols; reflexivity.
  - cbn; auto.
Qed.

Lemma subplot_rows_reversed_and_titled_witness :
  let fig0 := {| current := 0; axes_at := fun _ => blank |} in
  exists r,
    nuisance_prediction_hist (fun _ => 0) (fun _ => "0.00e+00"%string)
      [[1#10; 9#10; 4#10; 6#10]] (IntArray [0; 1; 0; 1]%Z) None 20 3 = Some r /\
    exists hist,
      nth_error (hr_hists r) 0 = Some hist /\
      ax_lines (axes_at (replay (hr_log r) fig0) 1)
      = [(midpoints (hr_p_bins r),
          map (fun row => count_value (nth 1 row 0%nat)) hist, None)] /\
      ax_title (axes_at (replay (hr_log r) fig0) 1)
      = Some "Model 0 (MI=0.00e+00)"%string.
Proof.
  intros fig0.
  destruct (nuisance_prediction_hist (fun _ => 0) (fun _ => "0.00e+00"%string)
              [[1#10; 9#10; 4#10; 6#10]] (IntArray [0; 1; 0; 1]%Z) None 20 3)
    as [r|] eqn:H; [|vm_compute in H; discriminate H].
  exists r; split; [reflexivity|].
  pose proof (subplot_rows_reversed_and_titled _ _ _ _ _ _ _ r fig0 H) as W.
  vm_compute in H; injection H as <-.
  apply (W 0%nat 0%nat); simpl; lia.
Defined.

(** ** Prediction edges, prediction bins and bin midpoints *)

Lemma midpoints_length (a : list Q) : length (midpoints a) = (length a - 1)%nat.
Proof.
  unfold midpoints; rewrite length_map, length_combine.
  rewrite removelast_firstn_len, length_firstn.
  destruct a; simpl; lia.
Qed.

Lemma midpoints_nth (a : list Q) (k : nat) :
  (S k < length a)%nat ->
  nth k (midpoints a) 0 == (nth k a 0 + nth (S k) a 0) / 2.
Proof.
  intros Hk; unfold midpoints.
  set (f := fun p : Q * Q => (fst p + snd p) / 2).
  assert (Hl : length (tl a) = length (removelast a)).
  { rewrite removelast_firstn_len, length_firstn; destruct a; simpl; lia. }
  assert (Hk' : (k < length (map f (combine (tl a) (removelast a))))%nat).
  { rewrite length_map, length_combine, <- Hl; destruct a; simpl in *; lia. }
  rewrite (nth_indep _ 0 (f (0, 0)) Hk'), map_nth, (combine_nth _ _ _ _ _ Hl).
  unfold f; cbn [fst snd].
  replace (nth k (tl a) 0) with (nth (S k) a 0)
    by (destruct a; [simpl in Hk; lia | reflexivity]).
  rewrite removelast_firstn_len, nth_firstn.
  destruct (Nat.ltb_spec k (Nat.pred (length a))); [|lia].
  field.
Qed.

(** Whatever [prediction_bins] is, a call that returns has built
    [prediction_bins] edges, tables of [prediction_bins - 1] prediction
    bins and as many midpoints. *)
Lemma prediction_bins_convention
  (mutual_information : list (list nat) -> Q) (format_2e : Q -> string)
  (predictions : list (list Q)) (nuisance : ndarray)
  (names : option (list string)) (nuisance_bins prediction_bins : Z)
  (r : hist_result) :
  nuisance_prediction_hist mutual_information format_2e predictions nuisance
    names nuisance_bins prediction_bins = Some r ->
  length (hr_p_bins r) = Z.to_nat prediction_bins /\
  (forall h, In h (hr_hists r) -> length h = Z.to_nat (prediction_bins - 1)) /\
  length (midpoints (hr_p_bins r)) = Z.to_nat (prediction_bins - 1).
Proof.
  intros H.
  apply nuisance_prediction_hist_hists, prediction_hists_some in H.
  destruct H as [_ [Hp Hhs]].
  pose proof (np_linspace_length _ _ _ _ Hp) as Hplen.
  split; [exact Hplen|]. split.
  - intros h Hin; destruct (mapM_in _ _ _ _ _ _ Hhs Hin) as [proba [_ Hh]].
    destruct (np_histogram2d_shape _ _ _ _ _ Hh) as [-> _]; lia.
  - rewrite midpoints_length; lia.
Qed.

(** C3 (amended). With [prediction_bins >= 2], a successful call has
    exactly [prediction_bins] prediction edges, evenly spaced from 0 to
    1 (edge [k] is [k / (prediction_bins - 1)]); every model's table
    has [prediction_bins - 1] prediction bins; and every plotted line
    has for abscissas the [prediction_bins - 1] midpoints of
    consecutive edges. *)
Theorem prediction_edges_and_bins
  (mutual_information : list (list nat) -> Q) (format_2e : Q -> string)
  (predictions : list (list Q)) (nuisance : ndarray)
  (names : option (list string)) (nuisance_bins prediction_bins : Z)
  (r : hist_result) :
  (2 <= prediction_bins)%Z ->
  nuisance_prediction_hist mutual_information format_2e predictions nuisance
    names nuisance_bins prediction_bins = Some r ->
  length (hr_p_bins r) = Z.to_nat prediction_bins /\
  (forall k, (k < length (hr_p_bins r))%nat ->
     nth k (hr_p_bins r) 0
     == inject_Z (Z.of_nat k) / inject_Z (prediction_bins - 1)) /\
  nth 0 (hr_p_bins r) 0 == 0 /\
  last (hr_p_bins r) 0 == 1 /\
  (forall h, In h (hr_hists r) -> length h = Z.to_nat (prediction_bins - 1)) /\
  length (midpoints (hr_p_bins r)) = Z.to_nat (prediction_bins - 1) /\
  (forall k, (k < length (midpoints (hr_p_bins r)))%nat ->
     nth k (midpoints (hr_p_bins r)) 0
     == (nth k (hr_p_bins r) 0 + nth (S k) (hr_p_bins r) 0) / 2) /\
  (forall xs ys label, In (Plot xs ys label) (hr_log r) ->
     xs = midpoints (hr_p_bins r) /\
     length ys = Z.to_nat (prediction_bins - 1)).
Proof.
  intros Hpb H.
  destruct (nuisance_prediction_hist_log _ _ _ _ _ _ _ _ H) as [Hlen Hlog].
  apply nuisance_prediction_hist_hists, prediction_hists_some in H.
  destruct H as [_ [Hp Hhs]].
  pose proof (np_linspace_length _ _ _ _ Hp) as Hplen.
  assert (Hnth : forall k, (k < length (hr_p_bins r))%nat ->
            nth k (hr_p_bins r) 0
            == inject_Z (Z.of_nat k) / inject_Z (prediction_bins - 1)).
  { intros k Hk; rewrite Hplen in Hk.
    rewrite (np_linspace_nth _ _ _ _ k Hpb Hp Hk).
    assert (Hd : ~ inject_Z (prediction_bins - 1) == 0).
    { change 0 with (inject_Z 0); rewrite inject_Z_injective; lia. }
    field; exact Hd. }
  assert (Hrows : forall h, In h (hr_hists r) ->
                            length h = Z.to_nat (prediction_bins - 1)).
  { intros h Hin; destruct (mapM_in _ _ _ _ _ _ Hhs Hin) as [proba [_ Hh]].
    destruct (np_histogram2d_shape _ _ _ _ _ Hh) as [-> _]; lia. }
  split; [exact Hplen|].
  split; [exact Hnth|].
  split.
  { rewrite Hnth by lia; change (inject_Z (Z.of_nat 0)) with 0.
    unfold Qdiv; ring. }
  split.
  { destruct (np_linspace_last _ _ _ _ Hpb Hp) as [l ->].
    rewrite last_last; reflexivity. }
  split; [exact Hrows|].
  split; [rewrite midpoints_length; lia|].
  split.
  { intros k Hk; rewrite midpoints_length in Hk; apply midpoints_nth; lia. }
  intros xs ys label Hin; rewrite Hlog in Hin.
  destruct Hin as [Hin|Hin]; [discriminate|].
  apply in_concat in Hin; destruct Hin as [cmds [Hc Hin]].
  apply in_map_iff in Hc; destruct Hc as [b [<- Hb]].
  apply in_map_iff in Hb; destruct Hb as [[j i] [<- Hji]].
  apply in_prod_iff in Hji; destruct Hji as [Hj _]; apply in_seq in Hj.
  unfold block_cmds, subplot_block in Hin;
    cbn [b_index b_line b_title fst snd] in Hin.
  assert (E : Plot xs ys label
              = Plot (midpoints (hr_p_bins r))
                     (expected_column (hr_nuisance_bins r) i
                        (nth j (hr_hists r) [])) None).
  { destruct Hin as [Hin|[Hin|Hin]]; [discriminate | congruence |].
    destruct (i =? 0)%nat; [destruct Hin as [Hin|[]]; discriminate | destruct Hin]. }
  injection E as -> -> _; split; [reflexivity|].
  unfold expected_column; rewrite length_map.
  apply Hrows, nth_In; lia.
Qed.

Lemma prediction_edges_and_bins_witness :
  exists r,
    nuisance_prediction_hist (fun _ => 0) (fun _ => "0.00e+00"%string)
      [[1#10; 9#10; 4#10; 6#10]] (IntArray [0; 1; 0; 1]%Z) None 20 3 = Some r /\
    length (hr_p_bins r) = 3%nat /\
    nth 0 (hr_p_bins r) 0 == 0 /\
    last (hr_p_bins r) 0 == 1 /\
    (forall h, In h (hr_hists r) -> length h = 2%nat) /\
    length (midpoints (hr_p_bins r)) = 2%nat.
Proof.
  destruct (nuisance_prediction_hist (fun _ => 0) (fun _ => "0.00e+00"%string)
              [[1#10; 9#10; 4#10; 6#10]] (IntArray [0; 1; 0; 1]%Z) None 20 3)
    as [r|] eqn:H; [|vm_compute in H; discriminate H].
  exists r; split; [reflexivity|].
  destruct (prediction_edges_and_bins _ _ _ _ _ _ 3 r ltac:(lia) H)
    as [H1 [_ [H3 [H4 [H5 [H6 _]]]]]].
  repeat split; assumption.
Defined.

(** C3 as stated fails below two prediction edges. With
    [prediction_bins = 1] the edge sequence is the single point 0,
    which stops short of 1; with [prediction_bins = 0] there is no edge
    and the histogram of the first model raises. *)
Lemma prediction_edges_below_two :
  (exists r,
     nuisance_prediction_hist (fun _ => 0) (fun _ => EmptyString)
       [[1#2]] (IntArray [0%Z]) None 20 1 = Some r /\
     hr_p_bins r = [0] /\
     ~ last (hr_p_bins r) 0 == 1) /\
  np_linspace 0 1 0 = Some [] /\
  nuisance_prediction_hist (fun _ => 0) (fun _ => EmptyString)
    [[1#2]] (IntArray [0%Z]) None 20 0 = None.
Proof.
  split; [|split; reflexivity].
  eexists; split; [reflexivity|].
  split; [reflexivity|].
  simpl; intros H; discriminate H.
Qed.

(** ** Tables stored row after row *)

Lemma concat_uniform_length (A : Type) (rows : list (list A)) (n : nat) :
  (forall row, In row rows -> length row = n) ->
  length (concat rows) = (length rows * n)%nat.
Proof.
  induction rows as [|row rows IH]; simpl; intros H; [reflexivity|].
  rewrite length_app, IH, (H row) by auto; reflexivity.
Qed.

Lemma nth_concat_uniform (A : Type) (rows : list (list A)) (n r c : nat) (d : A) :
  (forall row, In row rows -> length row = n) ->
  (r < length rows)%nat -> (c < n)%nat ->
  nth (r * n + c) (concat rows) d = nth c (nth r rows []) d.
Proof.
  revert r; induction rows as [|row rows IH]; intros r H Hr Hc;
    [simpl in Hr; lia|].
  assert (Hrow : length row = n) by (apply H; left; reflexivity).
  destruct r as [|r]; cbn [concat nth].
  - rewrite app_nth1 by lia; reflexivity.
  - rewrite app_nth2 by (simpl; lia).
    replace (S r * n + c - length row)%nat with (r * n + c)%nat by (simpl; lia).
    apply IH; [intros; apply H; right; assumption | simpl in Hr; lia | exact Hc].
Qed.

Lemma chunks_length (A : Type) (r c : nat) (a : list A) :
  length (chunks r c a) = r.
Proof. revert a; induction r; intros a; simpl; auto. Qed.

Lemma chunks_rows (A : Type) (r c : nat) (a : list A) :
  length a = (r * c)%nat ->
  forall row, In row (chunks r c a) -> length row = c.
Proof.
  revert a; induction r as [|r IH]; intros a Hl row Hin; [destruct Hin|].
  destruct Hin as [<-|Hin].
  - rewrite length_firstn; simpl in Hl; lia.
  - apply (IH (skipn c a)); [rewrite length_skipn; simpl in Hl; lia | exact Hin].
Qed.

Lemma concat_chunks (A : Type) (r c : nat) (a : list A) :
  length a = (r * c)%nat -> concat (chunks r c a) = a.
Proof.
  revert a; induction r as [|r IH]; intros a Hl; simpl in *.
  - destruct a; [reflexivity | discriminate].
  - rewrite IH by (rewrite length_skipn; lia); apply firstn_skipn.
Qed.

Lemma nth_map_in (A B : Type) (f : A -> B) (l : list A) (k : nat) (d : A) (d' : B) :
  (k < length l)%nat -> nth k (map f l) d' = f (nth k l d).
Proof.
  intros H; rewrite (nth_indep _ d' (f d)) by (rewrite length_map; exact H).
  apply map_nth.
Qed.

(** The flattened grid lists, for each [ys[r]] in turn, all of [xs]. *)
Lemma meshgrid_order (float32 : Q -> Q) (xs ys : list Q) :
  let grid := map (fun p => (float32 (fst p), float32 (snd p)))
                  (combine (ravel (fst (np_meshgrid xs ys)))
                           (ravel (snd (np_meshgrid xs ys)))) in
  length grid = (length ys * length xs)%nat /\
  forall r c, (r < length ys)%nat -> (c < length xs)%nat ->
    nth (r * length xs + c) grid (float32 0, float32 0)
    = (float32 (nth c xs 0), float32 (nth r ys 0)).
Proof.
  unfold np_meshgrid, ravel; cbn [fst snd].
  set (gx := map (fun _ : Q => xs) ys).
  set (gy := map (fun y : Q => map (fun _ : Q => y) xs) ys).
  assert (Hgx : forall row, In row gx -> length row = length xs).
  { intros row Hin; apply in_map_iff in Hin; destruct Hin as [y [<- _]]; reflexivity. }
  assert (Hgy : forall row, In row gy -> length row = length xs).
  { intros row Hin; apply in_map_iff in Hin; destruct Hin as [y [<- _]].
    apply length_map. }
  assert (Lx : length (concat gx) = (length ys * length xs)%nat).
  { rewrite (concat_uniform_length _ gx (length xs) Hgx); unfold gx.
    rewrite length_map; reflexivity. }
  assert (Ly : length (concat gy) = (length ys * length xs)%nat).
  { rewrite (concat_uniform_length _ gy (length xs) Hgy); unfold gy.
    rewrite length_map; reflexivity. }
  split.
  - rewrite length_map, length_combine, Lx, Ly; lia.
  - intros r c Hr Hc.
    rewrite (nth_map_in _ _ _ _ _ (0, 0))
      by (rewrite length_combine, Lx, Ly; nia).
    rewrite combine_nth by congruence; cbn [fst snd].
    rewrite (nth_concat_uniform _ gx (length xs) r c 0 Hgx)
      by (unfold gx; rewrite ?length_map; assumption).
    rewrite (nth_concat_uniform _ gy (length xs) r c 0 Hgy)
      by (unfold gy; rewrite ?length_map; assumption).
    unfold gx, gy.
    rewrite (nth_map_in _ _ _ ys r 0) by exact Hr.
    rewrite (nth_map_in _ _ _ ys r 0) by exact Hr.
    rewrite (nth_map_in _ _ _ xs c 0) by exact Hc.
    reflexivity.
Qed.

Lemma make_grid_some (float32 : Q -> Q) (data : list (Q * Q)) (size : Z)
  (xs ys : list Q) (grid : list (Q * Q)) :
  make_grid float32 data size = Some (xs, ys, grid) ->
  exists min0 min1 max0 max1,
    np_min (map fst data) = Some min0 /\ np_min (map snd data) = Some min1 /\
    np_max (map fst data) = Some max0 /\ np_max (map snd data) = Some max1 /\
    np_linspace (min0 - (5#100) * (max0 - min0)) (max0 + (5#100) * (max0 - min0)) size
    = Some xs /\
    np_linspace (min1 - (5#100) * (max1 - min1)) (max1 + (5#100) * (max1 - min1)) size
    = Some ys /\
    grid = map (fun p => (float32 (fst p), float32 (snd p)))
               (combine (ravel (fst (np_meshgrid xs ys)))
                        (ravel (snd (np_meshgrid xs ys)))).
Proof.
  unfold make_grid; intros H.
  apply bind_some in H; destruct H as [min0 [H0 H]].
  apply bind_some in H; destruct H as [min1 [H1 H]].
  apply bind_some in H; destruct H as [max0 [H2 H]].
  apply bind_some in H; destruct H as [max1 [H3 H]].
  apply bind_some in H; destruct H as [xs' [H4 H]].
  apply bind_some in H; destruct H as [ys' [H5 H]].
  cbn in H; injection H as <- <- <-.
  exists min0, min1, max0, max1; repeat split; assumption.
Qed.

(** ** [make_grid] *)

(** C5 (amended). For a data matrix whose two columns have minima
    [min0], [min1] and maxima [max0], [max1], and a resolution
    [size >= 2], [make_grid] returns two axes of exactly [size] evenly
    spaced points, from the minimum minus 5% of the range to the
    maximum plus 5% of the range (all points equal when the range is
    zero), and a grid of [size * size] pairs that lists all of [xs] for
    the first [y], then all of [xs] for the next [y], and so on. The
    default resolution is 25. *)
Theorem make_grid_axes_and_order (float32 : Q -> Q) (data : list (Q * Q))
  (size : Z) (min0 max0 min1 max1 : Q) :
  np_min (map fst data) = Some min0 -> np_max (map fst data) = Some max0 ->
  np_min (map snd data) = Some min1 -> np_max (map snd data) = Some max1 ->
  (2 <= size)%Z ->
  let lo0 := min0 - (5#100) * (max0 - min0) in
  let hi0 := max0 + (5#100) * (max0 - min0) in
  let lo1 := min1 - (5#100) * (max1 - min1) in
  let hi1 := max1 + (5#100) * (max1 - min1) in
  exists xs ys grid,
    make_grid float32 data size = Some (xs, ys, grid) /\
    length xs = Z.to_nat size /\ length ys = Z.to_nat size /\
    (forall k, (k < Z.to_nat size)%nat ->
       nth k xs 0 == lo0 + inject_Z (Z.of_nat k) * ((hi0 - lo0) / inject_Z (size - 1))) /\
    (forall k, (k < Z.to_nat size)%nat ->
       nth k ys 0 == lo1 + inject_Z (Z.of_nat k) * ((hi1 - lo1) / inject_Z (size - 1))) /\
    nth 0 xs 0 == lo0 /\ last xs 0 == hi0 /\
    nth 0 ys 0 == lo1 /\ last ys 0 == hi1 /\
    (max0 == min0 -> forall k, (k < Z.to_nat size)%nat -> nth k xs 0 == min0) /\
    (max1 == min1 -> forall k, (k < Z.to_nat size)%nat -> nth k ys 0 == min1) /\
    length grid = (Z.to_nat size * Z.to_nat size)%nat /\
    (forall r c, (r < Z.to_nat size)%nat -> (c < Z.to_nat size)%nat ->
       nth (r * Z.to_nat size + c) grid (float32 0, float32 0)
       = (float32 (nth c xs 0), float32 (nth r ys 0))) /\
    make_grid_default float32 data = make_grid float32 data 25.
Proof.
  intros Hmn0 Hmx0 Hmn1 Hmx1 Hsize lo0 hi0 lo1 hi1.
  destruct (np_linspace_total lo0 hi0 size) as [xs Hxs]; [lia|].
  destruct (np_linspace_total lo1 hi1 size) as [ys Hys]; [lia|].
  pose proof (np_linspace_length _ _ _ _ Hxs) as Lx.
  pose proof (np_linspace_length _ _ _ _ Hys) as Ly.
  destruct (meshgrid_order float32 xs ys) as [Lg Hg].
  assert (Hd : ~ inject_Z (size - 1) == 0).
  { change 0 with (inject_Z 0); rewrite inject_Z_injective; lia. }
  eexists xs, ys, _; split.
  { unfold make_grid; rewrite Hmn0, Hmn1, Hmx0, Hmx1; cbn [bind].
    fold lo0 hi0 lo1 hi1; rewrite Hxs, Hys; cbn [bind].
    unfold np_meshgrid; reflexivity. }
  split; [exact Lx|]. split; [exact Ly|].
  split; [intros k Hk; apply (np_linspace_nth _ _ _ _ k Hsize Hxs Hk)|].
  split; [intros k Hk; apply (np_linspace_nth _ _ _ _ k Hsize Hys Hk)|].
  split.
  { rewrite (np_linspace_nth _ _ _ _ 0%nat Hsize Hxs) by lia.
    change (inject_Z (Z.of_nat 0)) with 0; field; exact Hd. }
  split.
  { destruct (np_linspace_last _ _ _ _ Hsize Hxs) as [l ->].
    rewrite last_last; reflexivity. }
  split.
  { rewrite (np_linspace_nth _ _ _ _ 0%nat Hsize Hys) by lia.
    change (inject_Z (Z.of_nat 0)) with 0; field; exact Hd. }
  split.
  { destruct (np_linspace_last _ _ _ _ Hsize Hys) as [l ->].
    rewrite last_last; reflexivity. }
  split.
  { intros E k Hk; rewrite (np_linspace_nth _ _ _ _ k Hsize Hxs Hk).
    unfold hi0, lo0; rewrite E; field; exact Hd. }
  split.
  { intros E k Hk; rewrite (np_linspace_nth _ _ _ _ k Hsize Hys Hk).
    unfold hi1, lo1; rewrite E; field; exact Hd. }
  split; [unfold np_meshgrid in Lg |- *; cbn [fst snd] in Lg; rewrite Lg, Lx, Ly; reflexivity|].
  split; [|reflexivity].
  intros r c Hr Hc; rewrite <- Lx at 1.
  apply Hg; lia.
Qed.

Lemma make_grid_axes_and_order_witness :
  exists xs ys grid,
    make_grid (fun q => q) [(0, 0); (1, 2)] 3 = Some (xs, ys, grid) /\
    length xs = 3%nat /\ length ys = 3%nat /\
    nth 0 xs 0 == - (5#100) /\ last xs 0 == 1 + (5#100) /\
    nth 0 ys 0 == - (10#100) /\ last ys 0 == 2 + (10#100) /\
    length grid = 9%nat /\
    nth 5 grid (0, 0) = (nth 2 xs 0, nth 1 ys 0).
Proof.
  destruct (make_grid_axes_and_order (fun q => q) [(0, 0); (1, 2)] 3 0 1 0 2)
    as [xs [ys [grid [H [Lx [Ly [_ [_ [X0 [X1 [Y0 [Y1 [_ [_ [Lg [Hg _]]]]]]]]]]]]]]]];
    [reflexivity | reflexivity | reflexivity | reflexivity | lia |].
  exists xs, ys, grid.
  split; [exact H|]. split; [exact Lx|]. split; [exact Ly|].
  split; [rewrite X0; reflexivity|]. split; [rewrite X1; reflexivity|].
  split; [rewrite Y0; reflexivity|]. split; [rewrite Y1; reflexivity|].
  split; [exact Lg|].
  apply (Hg 1%nat 2%nat); simpl; lia.
Defined.

(** C5 as stated fails for [size = 1]: each axis is the single point
    minimum minus 5% of the range and does not reach the maximum plus
    5% of the range. *)
Lemma make_grid_single_point :
  np_min (map fst [(0, 0); (1, 1)]) = Some 0 /\
  np_max (map fst [(0, 0); (1, 1)]) = Some 1 /\
  exists x y,
    make_grid (fun q => q) [(0, 0); (1, 1)] 1 = Some ([x], [y], [(x, y)]) /\
    x == - (5#100) /\
    ~ last [x] 0 == 1 + (5#100) * (1 - 0).
Proof.
  split; [reflexivity | split; [reflexivity|]].
  eexists; eexists; split; [reflexivity|].
  split; [reflexivity|].
  simpl; intros H; discriminate H.
Qed.

(** ** [draw_response] *)

Lemma np_linspace_total_20 :
  np_linspace 0 1 20
  = Some (match np_linspace 0 1 20 with Some l => l | None => [] end).
Proof. reflexivity. Qed.

Lemma contour_args_some (nrows ncols : nat) :
  (2 <= nrows)%nat -> (2 <= ncols)%nat -> contour_args nrows ncols = Some tt.
Proof.
  intros Hr Hc; unfold contour_args.
  rewrite (proj2 (Nat.leb_le _ _) Hr), (proj2 (Nat.leb_le _ _) Hc).
  reflexivity.
Qed.

Lemma contour_args_inv (nrows ncols : nat) (u : unit) :
  contour_args nrows ncols = Some u -> (2 <= nrows)%nat /\ (2 <= ncols)%nat.
Proof.
  unfold contour_args.
  destruct (Nat.leb_spec 2 nrows), (Nat.leb_spec 2 ncols);
    cbn [andb]; intros E; try discriminate E; split; assumption.
Qed.

Lemma mask_select_inv (A : Type) (mask : list bool) (a r : list A) :
  mask_select mask a = Some r -> length mask = length a.
Proof.
  unfold mask_select.
  destruct (Nat.eqb_spec (length mask) (length a)); [trivial | discriminate].
Qed.

(** C4, amended. With axes of at least two points each and labels as
    many as data rows, [draw_response] succeeds for every probability
    vector of [len(xs) * len(ys)] values: the vector becomes a table of
    [len(ys)] rows and [len(xs)] columns that holds its values row
    after row, in their order, so that entry [(r, c)] is the value at
    position [r * len(xs) + c], the position where a grid built by
    [make_grid] has the point [(xs[c], ys[r])]. For every other length
    the reshape raises and so does the routine. The three conditions
    are also necessary: the routine returns only with a vector of that
    length, axes of at least two points and one label per data row. *)
Theorem draw_response_reshape (xs ys probabilities : list Q)
  (data : list (Q * Q)) (labels : list Q) :
  (length probabilities = (length ys * length xs)%nat ->
   (2 <= length xs)%nat -> (2 <= length ys)%nat ->
   length labels = length data ->
   exists table log,
     draw_response xs ys probabilities data labels = Some (table, log) /\
     length table = length ys /\
     (forall row, In row table -> length row = length xs) /\
     concat table = probabilities /\
     (forall r c, (r < length ys)%nat -> (c < length xs)%nat ->
        nth c (nth r table []) 0 = nth (r * length xs + c) probabilities 0) /\
     (forall float32 data' size grid,
        make_grid float32 data' size = Some (xs, ys, grid) ->
        length grid = length probabilities /\
        forall r c, (r < length ys)%nat -> (c < length xs)%nat ->
          nth (r * length xs + c) grid (float32 0, float32 0)
          = (float32 (nth c xs 0), float32 (nth r ys 0))) /\
     In (Contourf xs ys table
           (match np_linspace 0 1 20 with Some l => l | None => [] end)) log /\
     In (Contour xs ys table [1#2]) log) /\
  (length probabilities <> (length ys * length xs)%nat ->
   reshape probabilities (length ys) (length xs) = None /\
   draw_response xs ys probabilities data labels = None) /\
  (forall res, draw_response xs ys probabilities data labels = Some res ->
   length probabilities = (length ys * length xs)%nat /\
   (2 <= length xs)%nat /\ (2 <= length ys)%nat /\
   length labels = length data).
Proof.
  split; [|split].
  - intros Hp Hx Hy Hl.
    exists (chunks (length ys) (length xs) probabilities).
    eexists; split.
    { unfold draw_response, reshape, mask_select.
      rewrite (proj2 (Nat.eqb_eq _ _) Hp); cbn [bind].
      rewrite np_linspace_total_20; cbn [bind].
      rewrite (contour_args_some _ _ Hy Hx); cbn [bind].
      rewrite !length_map, (proj2 (Nat.eqb_eq _ _) Hl); cbn [bind].
      reflexivity. }
    split; [apply chunks_length|].
    split; [apply chunks_rows; exact Hp|].
    split; [apply concat_chunks; exact Hp|].
    split.
    { intros r c Hr Hc.
      rewrite <- (nth_concat_uniform _ _ (length xs) r c 0
                    (chunks_rows _ _ _ _ Hp))
        by (rewrite ?chunks_length; assumption).
      rewrite concat_chunks by exact Hp; reflexivity. }
    split.
    { intros float32 data' size grid Hg.
      destruct (make_grid_some _ _ _ _ _ _ Hg)
        as [? [? [? [? [_ [_ [_ [_ [_ [_ ->]]]]]]]]]].
      destruct (meshgrid_order float32 xs ys) as [Lg Hord].
      split; [rewrite Lg, Hp; reflexivity | exact Hord]. }
    split; [left; reflexivity|].
    right; right; right; left; reflexivity.
  - intros Hp.
    assert (E : reshape probabilities (length ys) (length xs) = None).
    { unfold reshape; destruct (Nat.eqb_spec (length probabilities)
                                  (length ys * length xs)); [contradiction | reflexivity]. }
    split; [exact E|].
    unfold draw_response; rewrite E; reflexivity.
  - intros res H.
    unfold draw_response in H.
    destruct (reshape probabilities (length ys) (length xs)) as [table|] eqn:Er;
      [|discriminate H].
    cbn [bind] in H.
    rewrite np_linspace_total_20 in H; cbn [bind] in H.
    destruct (contour_args (length ys) (length xs)) as [u|] eqn:Ec;
      [|discriminate H].
    cbn [bind] in H.
    destruct (mask_select (map (fun l => Qltb (1#2) l) labels) data)
      as [pos|] eqn:Em; [|discriminate H].
    apply mask_select_inv in Em; rewrite length_map in Em.
    apply contour_args_inv in Ec; destruct Ec as [Hy Hx].
    unfold reshape in Er.
    destruct (Nat.eqb_spec (length probabilities) (length ys * length xs))
      as [Hp|]; [|discriminate Er].
    repeat split; assumption.
Qed.

Lemma draw_response_reshape_witness :
  exists table log,
    draw_response [0; 1] [0; 1; 2] [1; 2; 3; 4; 5; 6] [(0, 0); (1, 1)] [0; 1]
    = Some (table, log) /\
    length table = 3%nat /\
    concat table = [1; 2; 3; 4; 5; 6] /\
    draw_response [0; 1] [0; 1; 2] [1; 2; 3; 4; 5] [(0, 0); (1, 1)] [0; 1] = None.
Proof.
  destruct (draw_response_reshape [0; 1] [0; 1; 2] [1; 2; 3; 4; 5; 6]
              [(0, 0); (1, 1)] [0; 1]) as [Hok _].
  assert (H2 : (2 <= length [0; 1])%nat) by (simpl; lia).
  assert (H3 : (2 <= length [0; 1; 2])%nat) by (simpl; lia).
  destruct (Hok eq_refl H2 H3 eq_refl) as [table [log [H [Lt [_ [Hc _]]]]]].
  destruct (draw_response_reshape [0; 1] [0; 1; 2] [1; 2; 3; 4; 5]
              [(0, 0); (1, 1)] [0; 1]) as [_ [Hbad _]].
  exists table, log.
  split; [exact H | split; [exact Lt | split; [exact Hc|]]].
  apply Hbad; simpl; lia.
Defined.

(** C4 as first stated fails on a grid that has a single point: the
    grid of [make_grid] at [size = 1] has axes of one point each, a
    probability vector of [1 * 1] values is reshaped without error, and
    the contour call then raises. It also fails, on a grid of two by
    two points, when the labels are more than the data rows: the mask
    of the scatter call raises. *)
Lemma draw_response_single_point_grid :
  (exists xs ys grid,
     make_grid (fun q => q) [(0, 0)] 1 = Some (xs, ys, grid) /\
     length xs = 1%nat /\ length ys = 1%nat /\
     length [1#2] = (length xs * length ys)%nat /\
     length [1] = length [(0, 0)] /\
     reshape [1#2] (length ys) (length xs) = Some [[1#2]] /\
     draw_response xs ys [1#2] [(0, 0)] [1] = None) /\
  length [1; 2; 3; 4] = (length [0; 1] * length [0; 1])%nat /\
  draw_response [0; 1] [0; 1] [1; 2; 3; 4] [(0, 0)] [1; 0] = None.
Proof.
  split; [|split; reflexivity].
  eexists; eexists; eexists.
  split; [vm_compute; reflexivity|].
  repeat split.
Qed.

(** ** Partition of the samples by bin index *)

Lemma py_index_inside (len : nat) (k : Z) :
  (0 <= k < Z.of_nat len)%Z -> py_index len k = Some (Z.to_nat k).
Proof.
  intros H; unfold py_index.
  destruct (Z.leb_spec 0 k); [|lia].
  destruct (Z.ltb_spec k (Z.of_nat len)); [reflexivity | lia].
Qed.

Lemma append_at_map_seq (A : Type) (f : nat -> list A) (s n i : nat) (v : A) :
  (i < n)%nat ->
  append_at (map f (seq s n)) i v
  = map (fun b => if (b =? s + i)%nat then f b ++ [v] else f b) (seq s n).
Proof.
  revert s i; induction n as [|n IH]; intros s i Hi; [lia|].
  destruct i as [|i]; cbn [seq map append_at].
  - rewrite Nat.add_0_r, Nat.eqb_refl; f_equal.
    apply map_ext_in; intros b Hb; apply in_seq in Hb.
    destruct (Nat.eqb_spec b s); [lia | reflexivity].
  - destruct (Nat.eqb_spec s (s + S i)); [lia|]; f_equal.
    rewrite IH by lia.
    apply map_ext; intros b; replace (S s + i)%nat with (s + S i)%nat by lia.
    reflexivity.
Qed.

Lemma repeat_map_seq (A : Type) (x : A) (n s : nat) :
  repeat x n = map (fun _ => x) (seq s n).
Proof.
  revert s; induction n as [|n IH]; intros s; simpl; [reflexivity|].
  rewrite (IH (S s)); reflexivity.
Qed.

Lemma empty_bins_map_seq (A : Type) (n : Z) :
  empty_bins A n = map (fun _ => []) (seq 0 (Z.to_nat n)).
Proof. apply repeat_map_seq. Qed.

Lemma group_cons (A : Type) (b : nat) (k : Z) (indx : list Z) (v : A) (vals : list A) :
  group b (k :: indx) (v :: vals)
  = (if (k =? Z.of_nat b)%Z then [v] else []) ++ group b indx vals.
Proof.
  unfold group; cbn [combine filter fst].
  destruct (k =? Z.of_nat b)%Z; reflexivity.
Qed.

(** Started from the groups [f b], the loop ends with every group [b]
    extended by the samples of bin [b], in their order. *)
Lemma partition_loop_map_seq (A : Type) (indx : list Z) (vals : list A)
  (n : nat) (f : nat -> list A) :
  (length vals <= length indx)%nat ->
  (forall k, In k indx -> (0 <= k < Z.of_nat n)%Z) ->
  partition_loop indx vals (map f (seq 0 n))
  = Some (map (fun b => f b ++ group b indx vals) (seq 0 n)).
Proof.
  revert indx f; induction vals as [|v vals IH]; intros indx f Hl Hk.
  - simpl; f_equal; apply map_ext; intros b.
    unfold group; destruct indx; simpl; rewrite app_nil_r; reflexivity.
  - destruct indx as [|k indx]; [simpl in Hl; lia|].
    cbn [partition_loop].
    assert (Hk0 : (0 <= k < Z.of_nat n)%Z) by (apply Hk; left; reflexivity).
    rewrite length_map, length_seq, (py_index_inside n k Hk0); cbn [bind].
    rewrite append_at_map_seq by lia.
    rewrite IH; [|simpl in Hl; lia | intros k' Hk'; apply Hk; right; exact Hk'].
    f_equal; apply map_ext; intros b.
    rewrite group_cons; cbn [Nat.add].
    destruct (Nat.eqb_spec b (Z.to_nat k)), (Z.eqb_spec k (Z.of_nat b));
      try lia; [rewrite <- app_assoc; reflexivity | reflexivity].
Qed.

Lemma partition_loop_groups (A : Type) (indx : list Z) (vals : list A) (n : Z) :
  (length vals <= length indx)%nat ->
  (forall k, In k indx -> (0 <= k < n)%Z) ->
  partition_loop indx vals (empty_bins A n)
  = Some (map (fun b => group b indx vals) (seq 0 (Z.to_nat n))).
Proof.
  intros Hl Hk; rewrite empty_bins_map_seq.
  rewrite partition_loop_map_seq; [reflexivity | exact Hl|].
  intros k Hin; specialize (Hk k Hin); lia.
Qed.

Lemma combine_map_seq (A B : Type) (f : nat -> A) (g : nat -> B) (l : list nat) :
  combine (map f l) (map g l) = map (fun b => (f b, g b)) l.
Proof. induction l as [|x l IH]; simpl; [reflexivity | rewrite IH; reflexivity]. Qed.

Section MetricPlot.

Variable float32 : Q -> Q.
Variable binarize : ndarray -> Z -> list Z * list Q.

(** C9. When the binning routine returns per-sample indices [indx]
    (each a bin number below [len(nu_bins) - 1], one per sample) and
    the edges [nu_bins], the computing half succeeds and: the labels
    are split into [len(nu_bins) - 1] groups, group [b] holding, in
    their order, the labels of the samples of index [b], each turned
    into 1 when above 0.5 and into 0 otherwise; for every model the
    metric is called once per bin [b], in the order of the bins, on
    the label group [b] and on the predictions of the samples of index
    [b], in their order (cast to single precision); and the metric
    values of a model are the results of these calls, one per bin. *)
Theorem metric_once_per_bin (predictions : list (list Q)) (labels : list Q)
  (nuisance : ndarray) (metric_fn : list Z -> list Q -> Q)
  (nuisance_bins : Z) (indx : list Z) (nu_bins : list Q) :
  binarize nuisance nuisance_bins = (indx, nu_bins) ->
  (forall k, In k indx -> (0 <= k < Z.of_nat (length nu_bins) - 1)%Z) ->
  length labels = length indx ->
  (forall proba, In proba predictions -> length proba = length indx) ->
  let n_bins := (length nu_bins - 1)%nat in
  let label_group := fun b =>
    map (fun l => if Qltb (1#2) l then 1%Z else 0%Z) (group b indx labels) in
  exists labels_binned calls metrics,
    binned_metrics float32 binarize predictions labels nuisance metric_fn
      nuisance_bins = Some (nu_bins, labels_binned, calls, metrics) /\
    labels_binned = map label_group (seq 0 n_bins) /\
    calls = map (fun proba =>
                   map (fun b => (label_group b, map float32 (group b indx proba)))
                       (seq 0 n_bins))
                predictions /\
    metrics = map (fun proba =>
                     map (fun b => metric_fn (label_group b)
                                             (map float32 (group b indx proba)))
                         (seq 0 n_bins))
                  predictions /\
    length metrics = length predictions /\
    forall metric, In metric metrics -> length metric = n_bins.
Proof.
  intros Hb Hk Hl Hp n_bins label_group.
  assert (En : Z.to_nat (Z.of_nat (length nu_bins) - 1) = n_bins) by (unfold n_bins; lia).
  assert (Hlab : partition_loop indx labels
                   (empty_bins Q (Z.of_nat (length nu_bins) - 1))
                 = Some (map (fun b => group b indx labels) (seq 0 n_bins))).
  { rewrite partition_loop_groups, En; [reflexivity | lia | exact Hk]. }
  assert (Hcalls : mapM (model_calls float32 indx (Z.of_nat (length nu_bins) - 1)
                           (map label_group (seq 0 n_bins))) predictions
                   = Some (map (fun proba =>
                                  map (fun b => (label_group b,
                                                 map float32 (group b indx proba)))
                                      (seq 0 n_bins))
                               predictions)).
  { rewrite <- mapM_pure; apply mapM_ext_in; intros proba Hin.
    unfold model_calls.
    rewrite partition_loop_groups, En; [|rewrite (Hp proba Hin); lia | exact Hk].
    cbn [bind]; f_equal.
    rewrite map_map, combine_map_seq, map_map; reflexivity. }
  assert (Elab : map binarize_labels
                   (map (fun b => group b indx labels) (seq 0 n_bins))
                 = map label_group (seq 0 n_bins)).
  { rewrite map_map; reflexivity. }
  eexists; eexists; eexists; split.
  { unfold binned_metrics; rewrite Hb, Hlab; cbn [bind].
    rewrite Elab, Hcalls; cbn [bind]; reflexivity. }
  split; [reflexivity|].
  split; [reflexivity|].
  split; [rewrite map_map; apply map_ext; intros proba; rewrite map_map; reflexivity|].
  split; [rewrite !length_map; reflexivity|].
  intros metric Hin.
  apply in_map_iff in Hin; destruct Hin as [c [<- Hc]].
  apply in_map_iff in Hc; destruct Hc as [proba [<- _]].
  rewrite !length_map, length_seq; reflexivity.
Qed.

End MetricPlot.

Lemma metric_once_per_bin_witness :
  exists labels_binned calls metrics,
    binned_metrics (fun q => q) (fun _ _ => ([0; 1; 0; 1]%Z, [0; 1; 2]))
      [[1#10; 9#10; 4#10; 6#10]] [0; 1; 0; 1] (FloatArray [3; 7; 3; 7])
      (fun _ ps => nth 0 ps 0) 10
    = Some ([0; 1; 2], labels_binned, calls, metrics) /\
    labels_binned = [[0; 0]; [1; 1]]%Z /\
    calls = [[([0; 0]%Z, [1#10; 4#10]); ([1; 1]%Z, [9#10; 6#10])]] /\
    metrics = [[1#10; 9#10]].
Proof.
  destruct (metric_once_per_bin (fun q => q) (fun _ _ => ([0; 1; 0; 1]%Z, [0; 1; 2]))
              [[1#10; 9#10; 4#10; 6#10]] [0; 1; 0; 1] (FloatArray [3; 7; 3; 7])
              (fun _ ps => nth 0 ps 0) 10 [0; 1; 0; 1]%Z [0; 1; 2])
    as [lb [calls [metrics [H [E1 [E2 [E3 _]]]]]]].
  - reflexivity.
  - intros k [<-|[<-|[<-|[<-|[]]]]]; simpl; lia.
  - reflexivity.
  - intros proba [<-|[]]; reflexivity.
  - exists lb, calls, metrics.
    split; [exact H|].
    split; [rewrite E1; reflexivity|].
    split; [rewrite E2; reflexivity|].
    rewrite E3; reflexivity.
Defined.

(** ** The vertical range of [nuisance_metric_plot] *)

Lemma py_min_spec (l : list Q) (m : Q) :
  py_min l = Some m -> In m l /\ forall y, In y l -> m <= y.
Proof. exact (np_min_spec l m). Qed.

Lemma py_max_spec (l : list Q) (m : Q) :
  py_max l = Some m -> In m l /\ forall y, In y l -> y <= m.
Proof. exact (np_max_spec l m). Qed.

Lemma replay_keeps_current (log : list draw) (fig : figure) :
  forallb keeps_current log = true -> current (replay log fig) = current fig.
Proof.
  revert fig; induction log as [|c log IH]; intros fig H; [reflexivity|].
  cbn [forallb] in H; apply andb_true_iff in H; destruct H as [Hc H].
  change (replay (c :: log) fig) with (replay log (step fig c)).
  rewrite (IH _ H); destruct c; try discriminate; reflexivity.
Qed.

Lemma replay_keeps_ylim (log : list draw) (fig : figure) :
  forallb keeps_ylim log = true ->
  ax_ylim (axes_at (replay log fig) (current fig))
  = ax_ylim (axes_at fig (current fig)).
Proof.
  revert fig; induction log as [|c log IH]; intros fig H; [reflexivity|].
  cbn [forallb] in H; apply andb_true_iff in H; destruct H as [Hc H].
  change (replay (c :: log) fig) with (replay log (step fig c)).
  assert (Ec : current (step fig c) = current fig)
    by (destruct c; try discriminate; reflexivity).
  rewrite <- Ec, (IH _ H), Ec.
  destruct c; try discriminate; cbn [step on_current axes_at current];
    rewrite ?Z.eqb_refl; reflexivity.
Qed.

(** The global extremes are the extremes of the per-model extremes. *)
Lemma global_min_of_mins (metrics : list (list Q)) (mins : list Q) (m : Q) :
  mapM np_min metrics = Some mins -> py_min mins = Some m ->
  global_min metrics m.
Proof.
  intros Hmins Hm; destruct (py_min_spec _ _ Hm) as [Hin Hle]; split.
  - destruct (mapM_in _ _ _ _ _ _ Hmins Hin) as [metric [Hmet Hmin]].
    apply in_concat; exists metric; split; [exact Hmet|].
    apply (np_min_spec _ _ Hmin).
  - intros v Hv; apply in_concat in Hv; destruct Hv as [metric [Hmet Hv]].
    destruct (In_nth_error _ _ Hmet) as [j Hj].
    destruct (mapM_nth_error _ _ _ _ _ j metric Hmins Hj) as [mn [Hmn Hmin]].
    apply Qle_trans with mn; [apply Hle; apply (nth_error_In _ _ Hmn)|].
    apply (np_min_spec _ _ Hmin); exact Hv.
Qed.

Lemma global_max_of_maxs (metrics : list (list Q)) (maxs : list Q) (m : Q) :
  mapM np_max metrics = Some maxs -> py_max maxs = Some m ->
  global_max metrics m.
Proof.
  intros Hmaxs Hm; destruct (py_max_spec _ _ Hm) as [Hin Hle]; split.
  - destruct (mapM_in _ _ _ _ _ _ Hmaxs Hin) as [metric [Hmet Hmax]].
    apply in_concat; exists metric; split; [exact Hmet|].
    apply (np_max_spec _ _ Hmax).
  - intros v Hv; apply in_concat in Hv; destruct Hv as [metric [Hmet Hv]].
    destruct (In_nth_error _ _ Hmet) as [j Hj].
    destruct (mapM_nth_error _ _ _ _ _ j metric Hmaxs Hj) as [mx [Hmx Hmax]].
    apply Qle_trans with mx; [|apply Hle; apply (nth_error_In _ _ Hmx)].
    apply (np_max_spec _ _ Hmax); exact Hv.
Qed.

Lemma py_min2_spec (a b : Q) :
  py_min2 a b <= a /\ py_min2 a b <= b /\ (py_min2 a b = a \/ py_min2 a b = b).
Proof.
  unfold py_min2; destruct (Qltb b a) eqn:E.
  - apply Qltb_lt in E; repeat split; [lra | lra | right; reflexivity].
  - apply Qltb_ge in E; repeat split; [lra | lra | left; reflexivity].
Qed.

Lemma nth_error_combine_seq (A : Type) (l : list A) (s j : nat) (x : A) :
  nth_error l j = Some x ->
  nth_error (combine (seq s (length l)) l) j = Some ((s + j)%nat, x).
Proof.
  revert s j; induction l as [|a l IH]; intros s j H; [destruct j; discriminate|].
  destruct j as [|j]; cbn [length seq combine nth_error] in *.
  - injection H as <-; rewrite Nat.add_0_r; reflexivity.
  - rewrite (IH (S s) j H); f_equal; f_equal; lia.
Qed.

Section MetricRange.

Variable float32 : Q -> Q.
Variable binarize : ndarray -> Z -> list Z * list Q.

Lemma binned_metrics_some (predictions : list (list Q)) (labels : list Q)
  (nuisance : ndarray) (metric_fn : list Z -> list Q -> Q) (nuisance_bins : Z)
  (nu_bins : list Q) (labels_binned : list (list Z))
  (calls : list (list (list Z * list Q))) (metrics : list (list Q)) :
  binned_metrics float32 binarize predictions labels nuisance metric_fn
    nuisance_bins = Some (nu_bins, labels_binned, calls, metrics) ->
  metrics = map (map (fun c => metric_fn (fst c) (snd c))) calls /\
  length metrics = length predictions.
Proof.
  unfold binned_metrics; destruct (binarize nuisance nuisance_bins) as [indx nu].
  intros H.
  apply bind_some in H; destruct H as [lb [_ H]].
  apply bind_some in H; destruct H as [cs [Hcs H]].
  injection H as _ _ <- <-; split; [reflexivity|].
  rewrite length_map; apply (mapM_length _ _ _ _ _ Hcs).
Qed.

(** C8. After a successful call the log is made of one line per model
    (the bin centers against the model's metric values), then the
    vertical range, the two axis labels and, with names, the legend.
    The range goes from the smaller of the global metric minimum and
    [base_level] to the global metric maximum plus 5% of the distance
    between these extremes, and it is the range of the current axes
    once the log is replayed. With a constant metric every line is
    flat at the constant, which the upper bound equals. *)
Theorem metric_plot_ylim (predictions : list (list Q)) (labels : list Q)
  (nuisance : ndarray) (metric_fn : list Z -> list Q -> Q) (base_level : Q)
  (names : option (list string)) (nuisance_bins : Z) (r : metric_result)
  (fig0 : figure) :
  nuisance_metric_plot float32 binarize predictions labels nuisance metric_fn
    base_level names nuisance_bins = Some r ->
  exists m_min m_max lines,
    global_min (mr_metrics r) m_min /\
    global_max (mr_metrics r) m_max /\
    let lo := if Qltb base_level m_min then base_level else m_min in
    let hi := m_max + (5#100) * (m_max - m_min) in
    lo <= m_min /\ lo <= base_level /\ (lo = m_min \/ lo = base_level) /\
    mr_log r = lines
               ++ [Ylim lo hi; Ylabel "metric"; Xlabel "nuisance parameter"]
               ++ match names with
                  | Some _ => [Legend]
                  | None => []
                  end /\
    length (mr_metrics r) = length predictions /\
    length lines = length predictions /\
    (forall j metric, nth_error (mr_metrics r) j = Some metric ->
       exists label,
         nth_error lines j = Some (Plot (centers (mr_nu_bins r)) metric label)) /\
    (forall lo' hi', In (Ylim lo' hi') (mr_log r) -> lo' = lo /\ hi' = hi) /\
    ax_ylim (axes_at (replay (mr_log r) fig0) (current fig0)) = Some (lo, hi) /\
    (forall c, (forall ls ps, metric_fn ls ps = c) ->
       (forall xs ys label, In (Plot xs ys label) (mr_log r) ->
          forall y, In y ys -> y = c) /\
       hi == c /\ c <= hi).
Proof.
  unfold nuisance_metric_plot; intros H.
  apply bind_some in H; destruct H as [[[[nu lb] calls] metrics] [Hbm H]].
  apply bind_some in H; destruct H as [lines [Hlines H]].
  apply bind_some in H; destruct H as [mins [Hmins H]].
  apply bind_some in H; destruct H as [m_min [Hmin H]].
  apply bind_some in H; destruct H as [maxs [Hmaxs H]].
  apply bind_some in H; destruct H as [m_max [Hmax H]].
  injection H as <-; cbn [mr_metrics mr_log mr_nu_bins].
  destruct (binned_metrics_some _ _ _ _ _ _ _ _ _ Hbm) as [Emet Lmet].
  pose proof (global_min_of_mins _ _ _ Hmins Hmin) as Gmin.
  pose proof (global_max_of_maxs _ _ _ Hmaxs Hmax) as Gmax.
  destruct (py_min2_spec m_min base_level) as [L1 [L2 L3]].
  assert (Llines : length lines = length metrics).
  { rewrite (mapM_length _ _ _ _ _ Hlines), length_combine, length_seq; lia. }
  assert (Hplot : forall c, In c lines ->
            exists j metric label,
              nth_error metrics j = Some metric /\
              c = Plot (centers nu) metric label).
  { intros c Hc; destruct (mapM_in _ _ _ _ _ _ Hlines Hc) as [[j metric] [Hin Hl]].
    cbn [fst snd] in Hl.
    apply bind_some in Hl; destruct Hl as [label [_ Hl]]; injection Hl as <-.
    destruct (In_nth_error _ _ Hin) as [k Hk].
    assert (Hk' : (k < length metrics)%nat).
    { assert (Hs : nth_error (combine (seq 0 (length metrics)) metrics) k <> None)
        by congruence.
      apply nth_error_Some in Hs; rewrite length_combine, length_seq in Hs; lia. }
    destruct (nth_error metrics k) as [metric'|] eqn:Ek;
      [|apply nth_error_None in Ek; lia].
    rewrite (nth_error_combine_seq _ metrics 0 k metric' Ek) in Hk.
    injection Hk as <- <-; exists k, metric', label; auto. }
  assert (Hkeep : forallb keeps_ylim lines = true).
  { apply forallb_forall; intros c Hc.
    destruct (Hplot c Hc) as [j [metric [label [_ ->]]]]; reflexivity. }
  assert (Hkeep' : forallb keeps_current lines = true).
  { apply forallb_forall; intros c Hc.
    destruct (Hplot c Hc) as [j [metric [label [_ ->]]]]; reflexivity. }
  exists m_min, m_max, lines.
  split; [exact Gmin|]. split; [exact Gmax|].
  cbv zeta; fold (py_min2 m_min base_level).
  split; [exact L1|]. split; [exact L2|]. split; [exact L3|].
  split; [reflexivity|].
  split; [exact Lmet|].
  split; [congruence|].
  split.
  { intros j metric Hj.
    destruct (mapM_nth_error _ _ _ _ _ j (j, metric) Hlines
                (nth_error_combine_seq _ metrics 0 j metric Hj))
      as [c [Hc Hl]].
    cbn [fst snd] in Hl.
    apply bind_some in Hl; destruct Hl as [label [_ Hl]]; injection Hl as <-.
    exists label; exact Hc. }
  split.
  { intros lo' hi' Hin; apply in_app_or in Hin; destruct Hin as [Hin|Hin].
    - destruct (Hplot _ Hin) as [j [metric [label [_ E]]]]; discriminate E.
    - destruct Hin as [E|[E|[E|Hin]]]; try discriminate E.
      + injection E as <- <-; auto.
      + destruct names; [destruct Hin as [E|[]]; discriminate E | destruct Hin]. }
  split.
  { rewrite replay_app.
    change (replay (?c :: ?l) ?f) with (replay l (step f c)).
    rewrite <- (replay_keeps_current lines fig0 Hkeep').
    set (fig1 := replay lines fig0).
    change (current fig1) with (current (step fig1
              (Ylim (py_min2 m_min base_level)
                    (m_max + (5 # 100) * (m_max - m_min))))).
    rewrite replay_keeps_ylim by (destruct names; reflexivity).
    cbn [step on_current axes_at current]; rewrite Z.eqb_refl; reflexivity. }
  intros c Hc.
  assert (Hall : forall metric, In metric metrics -> forall y, In y metric -> y = c).
  { intros metric Hmet y Hy; rewrite Emet in Hmet.
    apply in_map_iff in Hmet; destruct Hmet as [cs [<- _]].
    apply in_map_iff in Hy; destruct Hy as [a [<- _]]; apply Hc. }
  assert (Hcat : forall v, In v (concat metrics) -> v = c).
  { intros v Hv; apply in_concat in Hv; destruct Hv as [metric [Hm Hv]].
    apply (Hall metric Hm v Hv). }
  assert (Emin : m_min = c) by (apply Hcat, Gmin).
  assert (Emax : m_max = c) by (apply Hcat, Gmax).
  split.
  { intros xs ys label Hin y Hy; apply in_app_or in Hin; destruct Hin as [Hin|Hin].
    - destruct (Hplot _ Hin) as [j [metric [label' [Hj E]]]].
      injection E as _ -> _.
      apply (Hall metric (nth_error_In _ _ Hj) y Hy).
    - destruct Hin as [E|[E|[E|Hin]]]; try discriminate E.
      destruct names; [destruct Hin as [E|[]]; discriminate E | destruct Hin]. }
  rewrite Emin, Emax; split; [ring | lra].
Qed.

End MetricRange.

Lemma metric_plot_ylim_witness :
  let fig0 := {| current := 0; axes_at := fun _ => blank |} in
  exists r lo hi,
    nuisance_metric_plot (fun q => q) (fun _ _ => ([0; 1; 0; 1]%Z, [0; 1; 2]))
      [[1#10; 9#10; 4#10; 6#10]; [2#10; 8#10; 3#10; 7#10]] [0; 1; 0; 1]
      (FloatArray [3; 7; 3; 7]) (fun _ _ => 7#10) (1#2) None 10 = Some r /\
    ax_ylim (axes_at (replay (mr_log r) fig0) 0) = Some (lo, hi) /\
    lo <= 1#2 /\ hi == 7#10 /\ 7#10 <= hi /\
    forall xs ys label, In (Plot xs ys label) (mr_log r) ->
                        forall y, In y ys -> y = 7#10.
Proof.
  intros fig0.
  destruct (nuisance_metric_plot (fun q => q)
              (fun _ _ => ([0; 1; 0; 1]%Z, [0; 1; 2]))
              [[1#10; 9#10; 4#10; 6#10]; [2#10; 8#10; 3#10; 7#10]] [0; 1; 0; 1]
              (FloatArray [3; 7; 3; 7]) (fun _ _ => 7#10) (1#2) None 10)
    as [r|] eqn:H; [|vm_compute in H; discriminate H].
  destruct (metric_plot_ylim _ _ _ _ _ _ _ _ _ r fig0 H)
    as [m_min [m_max [lines [_ [_ [_ [Hlo [_ [_ [_ [_ [_ [_ [Hy Hc]]]]]]]]]]]]]].
  destruct (Hc (7#10) (fun _ _ => eq_refl)) as [Hflat [Hhi Hge]].
  exists r; eexists; eexists.
  split; [reflexivity|].
  split; [exact Hy|].
  split; [exact Hlo|].
  split; [exact Hhi|].
  split; [exact Hge | exact Hflat].
Defined.

(** ** When [nuisance_metric_plot] returns *)

Lemma append_at_length (A : Type) (binned : list (list A)) (i : nat) (v : A) :
  length (append_at binned i v) = length binned.
Proof.
  revert i; induction binned as [|l r IH]; intros i; [reflexivity|].
  destruct i; simpl; [reflexivity | rewrite IH; reflexivity].
Qed.

Lemma partition_loop_length (A : Type) (indx : list Z) (vals : list A)
  (binned binned' : list (list A)) :
  partition_loop indx vals binned = Some binned' ->
  length binned' = length binned.
Proof.
  revert indx binned; induction vals as [|v vals IH]; intros indx binned H.
  - simpl in H; injection H as <-; reflexivity.
  - destruct indx as [|k indx]; [discriminate|]; cbn [partition_loop] in H.
    apply bind_some in H; destruct H as [i [_ H]].
    rewrite (IH _ _ H); apply append_at_length.
Qed.

(** The drawing half raises only for want of a model, of a bin or of a
    name. *)
Lemma nuisance_metric_plot_total (float32 : Q -> Q)
  (binarize : ndarray -> Z -> list Z * list Q)
  (predictions : list (list Q)) (labels : list Q) (nuisance : ndarray)
  (metric_fn : list Z -> list Q -> Q) (base_level : Q)
  (names : option (list string)) (nuisance_bins : Z)
  (nu_bins : list Q) (labels_binned : list (list Z))
  (calls : list (list (list Z * list Q))) (metrics : list (list Q)) :
  binned_metrics float32 binarize predictions labels nuisance metric_fn
    nuisance_bins = Some (nu_bins, labels_binned, calls, metrics) ->
  predictions <> [] ->
  (2 <= length nu_bins)%nat ->
  match names with
  | Some ns => (length predictions <= length ns)%nat
  | None => True
  end ->
  exists r,
    nuisance_metric_plot float32 binarize predictions labels nuisance metric_fn
      base_level names nuisance_bins = Some r /\
    mr_metrics r = metrics.
Proof.
  intros Hbm Hne Hnu Hnames.
  assert (Hshape : length metrics = length predictions /\
                   forall metric, In metric metrics -> metric <> []).
  { unfold binned_metrics in Hbm.
    destruct (binarize nuisance nuisance_bins) as [indx nu].
    apply bind_some in Hbm; destruct Hbm as [lb [Hlb Hbm]].
    apply bind_some in Hbm; destruct Hbm as [cs [Hcs Hbm]].
    injection Hbm as -> _ _ <-.
    apply partition_loop_length in Hlb.
    unfold empty_bins in Hlb; rewrite repeat_length in Hlb.
    split; [rewrite length_map; apply (mapM_length _ _ _ _ _ Hcs)|].
    intros metric Hin E.
    apply in_map_iff in Hin; destruct Hin as [c [<- Hc]].
    destruct (mapM_in _ _ _ _ _ _ Hcs Hc) as [proba [_ Hm]].
    unfold model_calls in Hm.
    apply bind_some in Hm; destruct Hm as [pb [Hpb Hm]]; injection Hm as <-.
    apply partition_loop_length in Hpb.
    unfold empty_bins in Hpb; rewrite repeat_length in Hpb.
    apply (f_equal (@length Q)) in E.
    rewrite !length_map, length_combine, !length_map, Hpb, Hlb in E.
    simpl in E; lia. }
  destruct Hshape as [Lmet Hnon].
  destruct (mapM_total _ _
              (fun im => label <- line_label names (fst im) ;;
                         Some (Plot (centers nu_bins) (snd im) label))
              (combine (seq 0 (length metrics)) metrics)) as [lines Hlines].
  { intros [j metric] Hin; cbn [fst snd].
    apply in_combine_l, in_seq in Hin.
    unfold line_label; destruct names as [ns|]; [|eexists; reflexivity].
    destruct (nth_error ns j) as [name|] eqn:E;
      [eexists; reflexivity | apply nth_error_None in E; lia]. }
  destruct (mapM_total _ _ np_min metrics) as [mins Hmins].
  { intros metric Hin; apply np_min_total, Hnon, Hin. }
  destruct (mapM_total _ _ np_max metrics) as [maxs Hmaxs].
  { intros metric Hin; apply np_max_total, Hnon, Hin. }
  assert (Hmn : exists m, py_min mins = Some m).
  { apply (np_min_total mins); intros E; apply (f_equal (@length Q)) in E.
    rewrite (mapM_length _ _ _ _ _ Hmins), Lmet in E.
    destruct predictions; [congruence | discriminate]. }
  assert (Hmx : exists m, py_max maxs = Some m).
  { apply (np_max_total maxs); intros E; apply (f_equal (@length Q)) in E.
    rewrite (mapM_length _ _ _ _ _ Hmaxs), Lmet in E.
    destruct predictions; [congruence | discriminate]. }
  destruct Hmn as [m_min Hmin], Hmx as [m_max Hmax].
  eexists; split.
  - unfold nuisance_metric_plot; rewrite Hbm; cbn [bind].
    rewrite Hlines; cbn [bind]; rewrite Hmins; cbn [bind]; rewrite Hmin; cbn [bind].
    rewrite Hmaxs; cbn [bind]; rewrite Hmax; cbn [bind]; reflexivity.
  - reflexivity.
Qed.
